(** * mcp-mermaid-validator: the [validateMermaid] tool handler of src/main.ts

    The handler spawns the Mermaid CLI, pipes the diagram to it, collects
    what the child writes on stdout and stderr, and turns the way the child
    ends into a tool response.  The development below embeds the handler as
    a program in a small monad (an action log, exceptions, and a computation
    that may stay suspended on its [await]), runs it against an explicit
    description of what the child process does, and proves the properties
    the specification states about it.  A second model, [Server], runs the
    same handler inside the server process, where the child may come
    without streams and where an error event may find no listener.

    Conventions.
    - A JavaScript string is a Rocq [string] holding the UTF-8 encoding of
      the text; a [Buffer] is a [list byte].
    - [Buffer.toString()] is the WHATWG UTF-8 decoder with replacement;
      [Buffer.from(s)] gives back the bytes of [s].
    - The exit code of the child is a [Z]. *)

From Stdlib Require Import List Strings.String Strings.Ascii Strings.Byte ZArith NArith Bool Lia.
From Stdlib Require Import DecimalString DecimalPos DecimalZ.
Import ListNotations.

Local Open Scope string_scope.
Local Open Scope list_scope.

(* ===================================================================== *)
(** ** Runtime primitives used by the handler *)
(* ===================================================================== *)

Module JS.

Definition Buffer := list byte.

(** *** [Buffer.concat] *)

Definition Buffer_concat (chunks : list Buffer) : Buffer := List.concat chunks.

(** *** [Buffer.from(string)] *)

Definition Buffer_from (s : string) : Buffer := list_byte_of_string s.

(** *** [buf.toString()]: UTF-8 decoding with U+FFFD replacement

    The decoder is the WHATWG one: [needed] continuation bytes are still
    expected, the next one has to lie in [[lower, upper]], and [pending]
    holds the bytes of the sequence read so far.  An ill-formed sequence is
    replaced by U+FFFD (EF BF BD) and the offending byte is read again as a
    lead byte. *)

Record Utf8Decoder := mkUtf8 {
  needed : nat;
  lower : N;
  upper : N;
  pending : list byte
}.

Definition utf8_idle : Utf8Decoder := mkUtf8 0 0x80 0xBF [].

Definition replacement : list byte := [xef; xbf; xbd].

Definition in_range (lo hi n : N) : bool := ((lo <=? n) && (n <=? hi))%N.

Definition utf8_lead (b : byte) : Utf8Decoder * list byte :=
  let n := Byte.to_N b in
  if (n <=? 0x7F)%N then (utf8_idle, [b])
  else if in_range 0xC2 0xDF n then (mkUtf8 1 0x80 0xBF [b], [])
  else if (n =? 0xE0)%N then (mkUtf8 2 0xA0 0xBF [b], [])
  else if (n =? 0xED)%N then (mkUtf8 2 0x80 0x9F [b], [])
  else if in_range 0xE1 0xEF n then (mkUtf8 2 0x80 0xBF [b], [])
  else if (n =? 0xF0)%N then (mkUtf8 3 0x90 0xBF [b], [])
  else if (n =? 0xF4)%N then (mkUtf8 3 0x80 0x8F [b], [])
  else if in_range 0xF1 0xF3 n then (mkUtf8 3 0x80 0xBF [b], [])
  else (utf8_idle, replacement).

Definition utf8_step (st : Utf8Decoder) (b : byte) : Utf8Decoder * list byte :=
  match needed st with
  | O => utf8_lead b
  | S k =>
      if in_range (lower st) (upper st) (Byte.to_N b) then
        match k with
        | O => (utf8_idle, pending st ++ [b])
        | S _ => (mkUtf8 k 0x80 0xBF (pending st ++ [b]), [])
        end
      else
        let '(st', out) := utf8_lead b in (st', replacement ++ out)
  end.

Fixpoint utf8_run (st : Utf8Decoder) (bs : list byte) : list byte :=
  match bs with
  | [] => match needed st with O => [] | S _ => replacement end
  | b :: rest =>
      let '(st', out) := utf8_step st b in out ++ utf8_run st' rest
  end.

Definition toString (buf : Buffer) : string :=
  string_of_list_byte (utf8_run utf8_idle buf).

(** *** [buf.toString("base64")] *)

Definition base64_alphabet : string :=
  "ABCDEFGHIJKLMNOPQRSTUVWXYZabcdefghijklmnopqrstuvwxyz0123456789+/".

Definition base64_digit (n : N) : ascii :=
  match String.get (N.to_nat n) base64_alphabet with
  | Some c => c
  | None => "="%char
  end.

Fixpoint toBase64 (buf : Buffer) : string :=
  match buf with
  | [] => ""
  | [a] =>
      let x := Byte.to_N a in
      String (base64_digit (N.shiftr x 2))
        (String (base64_digit (N.shiftl (N.land x 3) 4)) "==")
  | [a; b] =>
      let x := Byte.to_N a in
      let y := Byte.to_N b in
      String (base64_digit (N.shiftr x 2))
        (String (base64_digit (N.lor (N.shiftl (N.land x 3) 4) (N.shiftr y 4)))
           (String (base64_digit (N.shiftl (N.land y 15) 2)) "="))
  | a :: b :: c :: rest =>
      let x := Byte.to_N a in
      let y := Byte.to_N b in
      let z := Byte.to_N c in
      String (base64_digit (N.shiftr x 2))
        (String (base64_digit (N.lor (N.shiftl (N.land x 3) 4) (N.shiftr y 4)))
           (String (base64_digit (N.lor (N.shiftl (N.land y 15) 2) (N.shiftr z 6)))
              (String (base64_digit (N.land z 63)) (toBase64 rest))))
  end.

(** *** [s.split(sep)] for a non-empty separator

    The string is scanned from the left; at each position where [sep]
    starts the piece read so far is closed and the separator is skipped
    ([skip] counts the characters of it still to pass over).  The result is
    never empty: a string without the separator gives one piece. *)

Fixpoint split_from (sep s : string) (skip : nat) (piece : string) : list string :=
  match s with
  | EmptyString => [piece]
  | String c rest =>
      match skip with
      | S k => split_from sep rest k piece
      | O =>
          if String.prefix sep s
          then piece :: split_from sep rest (String.length sep - 1) ""
          else split_from sep rest 0 (piece ++ String c "")
      end
  end.

Definition split (s sep : string) : list string := split_from sep s 0 "".

(** *** [arr.join(sep)] *)

Definition join (arr : list string) (sep : string) : string := String.concat sep arr.

(** *** Template-literal interpolation of an integer *)

Definition Number_toString (n : Z) : string := NilZero.string_of_int (Z.to_int n).

(** *** Truthiness of a string: non-empty *)

Definition truthy (s : string) : bool :=
  match s with EmptyString => false | String _ _ => true end.

End JS.

Import JS.

(* ===================================================================== *)
(** ** Data model *)
(* ===================================================================== *)

(** The [format] argument: [z.enum(["svg", "png"])]. *)
Inductive Format := svg | png.

Definition Format_str (f : Format) : string :=
  match f with svg => "svg" | png => "png" end.

Definition is_svg (f : Format) : bool := match f with svg => true | png => false end.
Definition is_png (f : Format) : bool := match f with png => true | svg => false end.

(** A content block of a tool response, [{ type: "text", text }] or
    [{ type: "image", data, mimeType }], and the response
    [{ content: [...] }]. *)
Inductive Block :=
| Text (text : string)
| Image (data : string) (mimeType : string).

Definition Response := list Block.

(** A value caught by [catch (e: unknown)]: an instance of [Error] with its
    message, or any other value with what [String(e)] gives for it. *)
Inductive Thrown :=
| JsError (message : string)
| JsValue (rendered : string).

(** [e instanceof Error ? e.message : String(e)] *)
Definition message_of (e : Thrown) : string :=
  match e with
  | JsError m => m
  | JsValue s => s
  end.

(** What the child process makes the handler see: a chunk on stdout, a
    chunk on stderr, ["close"] with the exit code, ["error"] with the
    error's message. *)
Inductive Event :=
| StdoutData (data : Buffer)
| StderrData (data : Buffer)
| Close (code : Z)
| Error (message : string).

(** The engine side of one call: [spawn] may throw on the spot, and the
    child, which has its three streams, emits its events in order.  (A
    child without streams and an error on its stdin are in [Server]
    below.) *)
Record Engine := mkEngine {
  spawn_throws : option Thrown;
  emitted : list Event
}.

(** What the handler does to the outside, in order. *)
Inductive Action :=
| Spawn (command : string) (args : list string) (stdio : list string)
| StdinWrite (chunk : string)
| StdinEnd
| ListenStdout
| ListenStderr
| Await.

(* ===================================================================== *)
(** ** The monad of handler programs *)
(* ===================================================================== *)

(** A program ends normally, by throwing, or not at all (it stays suspended
    on a promise that never settles). *)
Inductive Completion (A : Type) :=
| Normal (a : A)
| Throw (e : Thrown)
| Suspended.

Arguments Normal {A} a.
Arguments Throw {A} e.
Arguments Suspended {A}.

Definition Prog (A : Type) : Type := Engine -> list Action -> list Action * Completion A.

Definition ret {A} (a : A) : Prog A := fun _ log => (log, Normal a).

Definition bind {A B} (m : Prog A) (k : A -> Prog B) : Prog B :=
  fun eng log =>
    match m eng log with
    | (log', Normal a) => k a eng log'
    | (log', Throw e) => (log', Throw e)
    | (log', Suspended) => (log', Suspended)
    end.

(** [try { body } catch (e) { handler e }] *)
Definition try_catch {A} (body : Prog A) (handler : Thrown -> Prog A) : Prog A :=
  fun eng log =>
    match body eng log with
    | (log', Throw e) => handler e eng log'
    | r => r
    end.

Definition act (a : Action) : Prog unit := fun _ log => (log ++ [a], Normal tt).

Declare Scope prog_scope.
Delimit Scope prog_scope with prog.
Notation "x <- c ;; k" := (bind c (fun x => k))
  (at level 61, c at next level, right associativity) : prog_scope.
Notation "c ;; k" := (bind c (fun _ => k))
  (at level 61, right associativity) : prog_scope.
Notation "'try' b 'catch' h" := (try_catch b h)
  (at level 62, b at level 61, h at level 61) : prog_scope.

Local Open Scope prog_scope.

(* ===================================================================== *)
(** ** The handler *)
(* ===================================================================== *)

Definition nl : string := String "010"%char "".

Definition details_separator : string := nl ++ nl ++ "Error details:" ++ nl.

(** Lines 28-41: the arguments of [npx]. *)
Definition mmdc_args (format : Format) : list string :=
  let args := ["@mermaid-js/mermaid-cli"; "-i"; "-"; "-o"; "-"; "-e"; Format_str format] in
  if is_png format then args ++ ["-b"; "transparent"] else args.

(** Line 43: [spawn("npx", args, { stdio: ["pipe", "pipe", "pipe"] })]. *)
Definition spawn (command : string) (args stdio : list string) : Prog unit :=
  fun eng log =>
    match spawn_throws eng with
    | Some e => (log ++ [Spawn command args stdio], Throw e)
    | None => (log ++ [Spawn command args stdio], Normal tt)
    end.

(** Lines 50-52: the variables the listeners write to. *)
Record Locals := mkLocals {
  outputChunks : list Buffer;
  svgContent : string;
  errorOutput : string
}.

Definition initial_locals : Locals := mkLocals [] "" "".

(** Lines 54-60: the listener of [mmdc.stdout]. *)
Definition on_stdout_data (format : Format) (data : Buffer) (v : Locals) : Locals :=
  if is_svg format
  then mkLocals (outputChunks v) (svgContent v ++ toString data) (errorOutput v)
  else mkLocals (outputChunks v ++ [data]) (svgContent v) (errorOutput v).

(** Lines 62-64: the listener of [mmdc.stderr]. *)
Definition on_stderr_data (data : Buffer) (v : Locals) : Locals :=
  mkLocals (outputChunks v) (svgContent v) (errorOutput v ++ toString data).

(** The tail both rejections append:
    [errorOutput ? "\n\nError details:\n" + errorOutput : ""]. *)
Definition error_details (v : Locals) : string :=
  if truthy (errorOutput v) then details_separator ++ errorOutput v else "".

(** How the promise of lines 67-87 stands. *)
Inductive Settlement :=
| Resolved
| Rejected (reason : Thrown)
| Unsettled.

(** Lines 68-78: the listener of ["close"]. *)
Definition on_close (code : Z) (v : Locals) : Settlement :=
  if (code =? 0)%Z then Resolved
  else Rejected (JsError ("mermaid-cli process exited with code "
                          ++ Number_toString code ++ error_details v)).

(** Lines 80-86: the listener of ["error"]. *)
Definition on_error (message : string) (v : Locals) : Settlement :=
  Rejected (JsError (message ++ error_details v)).

(** The events reach the listeners one by one; the first ["close"] or
    ["error"] settles the promise, and the code after the [await] runs with
    the variables as they are then. *)
Fixpoint dispatch (format : Format) (events : list Event) (v : Locals) : Settlement * Locals :=
  match events with
  | [] => (Unsettled, v)
  | StdoutData data :: rest => dispatch format rest (on_stdout_data format data v)
  | StderrData data :: rest => dispatch format rest (on_stderr_data data v)
  | Close code :: _ => (on_close code v, v)
  | Error message :: _ => (on_error message v, v)
  end.

(** Lines 67-87: [await new Promise(...)]. *)
Definition await_exit (format : Format) : Prog Locals :=
  fun eng log =>
    match dispatch format (emitted eng) initial_locals with
    | (Resolved, v) => (log ++ [Await], Normal v)
    | (Rejected reason, _) => (log ++ [Await], Throw reason)
    | (Unsettled, _) => (log ++ [Await], Suspended)
    end.

(** Lines 90-119: the response for a diagram the engine rendered. *)
Definition valid_response (format : Format) (v : Locals) : Response :=
  if is_svg format then
    [ Text "Mermaid diagram is valid";
      Image (toBase64 (Buffer_from (svgContent v))) "image/svg+xml" ]
  else
    let pngBuffer := Buffer_concat (outputChunks v) in
    [ Text "Mermaid diagram is valid";
      Image (toBase64 pngBuffer) "image/png" ].

(** Lines 120-154: the response built in the inner [catch].
    [const [mainError, ...errorDetails] = errorMessage.split(...)] takes the
    first piece and the rest; [split] never gives an empty array. *)
Definition invalid_response (validationError : Thrown) : Response :=
  let errorMessage := message_of validationError in
  let pieces := split errorMessage details_separator in
  let mainError := hd "" pieces in
  let errorDetails := tl pieces in
  let errorContent := [ Text "Mermaid diagram is invalid"; Text mainError ] in
  if (0 <? List.length errorDetails)%nat
  then errorContent ++ [ Text ("Detailed error output:" ++ nl ++ join errorDetails nl) ]
  else errorContent.

(** Lines 155-164: the response built in the outer [catch]. *)
Definition system_error_response (error : Thrown) : Response :=
  [ Text ("Error processing Mermaid diagram: " ++ message_of error) ].

(** Lines 22-165: the handler, [async ({ diagram, format = "png" }) => ...]. *)
Definition validateMermaid (diagram : string) (format_arg : option Format) : Prog Response :=
  let format := match format_arg with Some f => f | None => png end in
  try
    (try
       (let args := mmdc_args format in
        spawn "npx" args ["pipe"; "pipe"; "pipe"] ;;
        act (StdinWrite diagram) ;;
        act StdinEnd ;;
        act ListenStdout ;;
        act ListenStderr ;;
        v <- await_exit format ;;
        ret (valid_response format v))
     catch (fun validationError => ret (invalid_response validationError)))
  catch (fun error => ret (system_error_response error)).

(** One call of the handler against an engine. *)
Definition run (diagram : string) (format_arg : option Format) (eng : Engine)
  : list Action * Completion Response :=
  validateMermaid diagram format_arg eng [].

Definition outcome (diagram : string) (format_arg : option Format) (eng : Engine)
  : Completion Response :=
  snd (run diagram format_arg eng).

Definition actions (diagram : string) (format_arg : option Format) (eng : Engine)
  : list Action :=
  fst (run diagram format_arg eng).

(* ===================================================================== *)
(** ** The input schema of the tool (lines 18-21) *)
(* ===================================================================== *)

(** The arguments of a tool call as they arrive: each field present or
    not. *)
Record RawArguments := mkRaw {
  raw_diagram : option string;
  raw_format : option string
}.

(** [z.enum(["svg", "png"]).optional().default("png")] *)
Definition parse_format (raw : option string) : option Format :=
  match raw with
  | None => Some png
  | Some s =>
      if String.eqb s "svg" then Some svg
      else if String.eqb s "png" then Some png
      else None
  end.

(** [{ diagram: z.string(), format: ... }]: [None] when the arguments are
    refused. *)
Definition parse_arguments (raw : RawArguments) : option (string * Format) :=
  match raw_diagram raw, parse_format (raw_format raw) with
  | Some d, Some f => Some (d, f)
  | _, _ => None
  end.

(** A tool call: the schema first, then the handler; [None] when the
    schema refuses the arguments and the handler is not run. *)
Definition callTool (raw : RawArguments) (eng : Engine)
  : option (list Action * Completion Response) :=
  match parse_arguments raw with
  | Some (d, f) => Some (run d (Some f) eng)
  | None => None
  end.

(* ===================================================================== *)
(** ** The three shapes of a response *)
(* ===================================================================== *)

Definition Valid_shape (r : Response) : bool :=
  match r with
  | [Text t; Image _ _] => String.eqb t "Mermaid diagram is valid"
  | _ => false
  end.

Definition Invalid_shape (r : Response) : bool :=
  match r with
  | [Text t; Text _] | [Text t; Text _; Text _] => String.eqb t "Mermaid diagram is invalid"
  | _ => false
  end.

Definition SystemError_shape (r : Response) : bool :=
  match r with
  | [Text t] => String.prefix "Error processing Mermaid diagram: " t
  | _ => false
  end.

Inductive Classification := ValidC | InvalidC | SystemErrorC | OtherC.

Definition classify (r : Response) : Classification :=
  if Valid_shape r then ValidC
  else if Invalid_shape r then InvalidC
  else if SystemError_shape r then SystemErrorC
  else OtherC.

(** Exactly one of three booleans. *)
Definition exactly_one (a b c : bool) : bool :=
  (a && negb b && negb c) || (negb a && b && negb c) || (negb a && negb b && c).

(* ===================================================================== *)
(** ** What the engine did, seen from outside *)
(* ===================================================================== *)

(** How the run of the child ends for the handler: the first ["close"],
    with its exit code, or the first ["error"], with its message, whichever
    comes first; [None] when the child emits neither. *)
Inductive Ending :=
| Exited (code : Z)
| Failed (message : string).

Fixpoint settling_event (events : list Event) : option Ending :=
  match events with
  | [] => None
  | StdoutData _ :: rest | StderrData _ :: rest => settling_event rest
  | Close code :: _ => Some (Exited code)
  | Error message :: _ => Some (Failed message)
  end.

(** The chunks read from stdout, and from stderr, until the promise
    settles. *)
Fixpoint stdout_chunks (events : list Event) : list Buffer :=
  match events with
  | StdoutData data :: rest => data :: stdout_chunks rest
  | StderrData _ :: rest => stdout_chunks rest
  | _ => []
  end.

Fixpoint stderr_chunks (events : list Event) : list Buffer :=
  match events with
  | StderrData data :: rest => data :: stderr_chunks rest
  | StdoutData _ :: rest => stderr_chunks rest
  | _ => []
  end.

(** All the bytes the child wrote on stdout, and on stderr. *)
Definition stdout_bytes (events : list Event) : Buffer := List.concat (stdout_chunks events).
Definition stderr_bytes (events : list Event) : Buffer := List.concat (stderr_chunks events).

(** Chunks decoded one at a time and appended, as [text += data.toString()]
    does. *)
Definition decode_chunks (chunks : list Buffer) : string :=
  fold_right (fun data text => (toString data ++ text)%string) "" chunks.

(** The text the stderr listener has put together. *)
Definition stderr_text (events : list Event) : string :=
  decode_chunks (stderr_chunks events).

(** The text the stdout listener has put together for svg. *)
Definition stdout_text (events : list Event) : string :=
  decode_chunks (stdout_chunks events).

(* ===================================================================== *)
(** ** Auxiliary definitions for the statements *)
(* ===================================================================== *)

(** [s] does not contain the character [c]. *)
Fixpoint free_of (c : ascii) (s : string) : bool :=
  match s with
  | EmptyString => true
  | String a rest => negb (Ascii.eqb a c) && free_of c rest
  end.

(** How a call ends, as far as a caller can tell the cases apart. *)
Inductive Verdict :=
| Answered (c : Classification)
| Escaped
| Awaiting.

Definition verdict (c : Completion Response) : Verdict :=
  match c with
  | Normal r => Answered (classify r)
  | Throw _ => Escaped
  | Suspended => Awaiting
  end.

(** The run of the child comes to an end for the handler: [spawn] throws,
    or the child emits ["close"] or ["error"]. *)
Definition ends (eng : Engine) : bool :=
  match spawn_throws eng, settling_event (emitted eng) with
  | None, None => false
  | _, _ => true
  end.

(** The MIME type of the image block. *)
Definition mime_of (format : Format) : string :=
  match format with
  | svg => "image/svg+xml"
  | png => "image/png"
  end.

(** The format the handler works with: the argument, or png. *)
Definition format_or_default (format_arg : option Format) : Format :=
  match format_arg with Some f => f | None => png end.

(** The variables of the handler once the promise has settled. *)
Definition locals_at_settlement (format : Format) (events : list Event) : Locals :=
  mkLocals (if is_svg format then [] else stdout_chunks events)
           (if is_svg format then stdout_text events else "")
           (stderr_text events).

(** The detail block of an Invalid response, for the stderr text [e]. *)
Definition detail_block (e : string) : Block :=
  Text ("Detailed error output:" ++ nl ++ join (split e details_separator) nl).

(** The number of [StdinWrite] and of [StdinEnd] actions in a log. *)
Definition is_write (a : Action) : bool :=
  match a with StdinWrite _ => true | _ => false end.

Definition is_end (a : Action) : bool :=
  match a with StdinEnd => true | _ => false end.

Definition is_spawn (a : Action) : bool :=
  match a with Spawn _ _ _ => true | _ => false end.

(** [stdio: ["pipe", "pipe", "pipe"]]: a pipe each for stdin, stdout and
    stderr of the child. *)
Definition pipes : list string := ["pipe"; "pipe"; "pipe"].

(** The log of a call in which [spawn] returned a child. *)
Definition full_log (diagram : string) (format : Format) : list Action :=
  [ Spawn "npx" (mmdc_args format) pipes; StdinWrite diagram; StdinEnd;
    ListenStdout; ListenStderr; Await ].

(** The number of content blocks of the response, when there is one. *)
Definition block_count (c : Completion Response) : option nat :=
  match c with
  | Normal r => Some (List.length r)
  | _ => None
  end.

(** How a call ends depends on whether [spawn] threw and on the event that
    settles the promise, and on nothing else. *)
Definition verdict_of_ending (thrown : bool) (ending : option Ending) : Verdict :=
  if thrown then Answered InvalidC
  else match ending with
       | Some (Exited code) => if (code =? 0)%Z then Answered ValidC else Answered InvalidC
       | Some (Failed _) => Answered InvalidC
       | None => Awaiting
       end.

(** The number of blocks of the response is fixed by the same data and by
    whether anything was read from stderr. *)
Definition block_count_of_ending
    (thrown : option Thrown) (ending : option Ending) (stderr_seen : bool) : option nat :=
  match thrown with
  | Some e => Some (List.length (invalid_response e))
  | None =>
      match ending with
      | Some (Exited code) =>
          if (code =? 0)%Z then Some 2 else Some (if stderr_seen then 3 else 2)
      | Some (Failed msg) =>
          Some (if stderr_seen then 3 else List.length (invalid_response (JsError msg)))
      | None => None
      end
  end.

(** A chunk that is well-formed UTF-8 on its own: decoding it and encoding
    the text again gives the same bytes. *)
Definition well_formed_chunk (data : Buffer) : Prop :=
  Buffer_from (toString data) = data.

(** *** Engines used as examples *)

(** The engine rejects the diagram: a message on stderr, exit code 1. *)
Definition rejecting_engine : Engine :=
  mkEngine None [StderrData (Buffer_from "Parse error on line 1"); Close 1].

(** The engine renders the diagram and writes it in two chunks. *)
Definition rendering_engine : Engine :=
  mkEngine None
    [StdoutData (Buffer_from "<svg>"); StdoutData (Buffer_from "</svg>"); Close 0].

(** [npx] is not found: the child emits ["error"], then ["close"]. *)
Definition missing_binary_engine : Engine :=
  mkEngine None [Error "spawn npx ENOENT"; Close (-2)].

(** The engine writes an SVG holding U+00E9 (C3 A9 in UTF-8), and the pipe
    hands it over in two chunks cut between the two bytes. *)
Definition split_character_engine : Engine :=
  mkEngine None
    [StdoutData (Buffer_from "<svg>" ++ [xc3]);
     StdoutData ([xa9] ++ Buffer_from "</svg>");
     Close 0].

(** The engine exits with code 0 and writes nothing. *)
Definition silent_engine : Engine := mkEngine None [Close 0].

(** The same bytes on both channels and the same exit code as
    [rejecting_engine], cut and interleaved differently. *)
Definition rejecting_engine_rechunked : Engine :=
  mkEngine None
    [StderrData (Buffer_from "Parse error");
     StdoutData [];
     StderrData (Buffer_from " on line 1");
     Close 1].

(* ===================================================================== *)
(** ** Auxiliary definitions for the further properties *)
(* ===================================================================== *)

(** [sep] starts somewhere in [s]. *)
Fixpoint occurs (sep s : string) : bool :=
  match s with
  | EmptyString => false
  | String _ rest => String.prefix sep s || occurs sep rest
  end.

(** [sep] starts in [a ++ rest] at a position that lies in [a]. *)
Fixpoint occurs_before (sep a rest : string) : bool :=
  match a with
  | EmptyString => false
  | String _ a' => String.prefix sep (a ++ rest) || occurs_before sep a' rest
  end.

(** A byte below 0x80. *)
Definition is_ascii_byte (b : byte) : bool := (Byte.to_N b <=? 0x7F)%N.

(** A stretch of bytes the decoder reads, from its idle state, as it
    stands, and after which it is idle again. *)
Definition clean (l : list byte) : Prop :=
  forall rest, utf8_run utf8_idle (l ++ rest) = l ++ utf8_run utf8_idle rest.

(** The decoder in state [st] is where reading [pending st] from the idle
    state has brought it, with nothing given out yet. *)
Definition utf8_inv (st : Utf8Decoder) : Prop :=
  forall rest, utf8_run utf8_idle (pending st ++ rest) = utf8_run st rest.

(** The response holds an image block. *)
Definition has_image (r : Response) : bool :=
  existsb (fun b => match b with Image _ _ => true | Text _ => false end) r.

(** *** Reading base64 back

    The code only encodes; the reading back below is what a client does
    with the image data, and serves to show that the encoding loses
    nothing. *)

Fixpoint index_of (c : ascii) (s : string) (i : N) : N :=
  match s with
  | EmptyString => i
  | String a rest => if Ascii.eqb a c then i else index_of c rest (i + 1)
  end.

Definition base64_value (c : ascii) : N := index_of c base64_alphabet 0.

Definition byte_of (n : N) : byte :=
  match Byte.of_N n with Some b => b | None => x00 end.

Definition decode1 (c1 c2 : ascii) : byte :=
  byte_of (N.lor (N.shiftl (base64_value c1) 2) (N.shiftr (base64_value c2) 4)).

Definition decode2 (c2 c3 : ascii) : byte :=
  byte_of (N.lor (N.shiftl (N.land (base64_value c2) 15) 4) (N.shiftr (base64_value c3) 2)).

Definition decode3 (c3 c4 : ascii) : byte :=
  byte_of (N.lor (N.shiftl (N.land (base64_value c3) 3) 6) (base64_value c4)).

Fixpoint fromBase64 (s : string) : Buffer :=
  match s with
  | String c1 (String c2 (String c3 (String c4 rest))) =>
      if Ascii.eqb c3 "=" then [decode1 c1 c2]
      else if Ascii.eqb c4 "=" then [decode1 c1 c2; decode2 c2 c3]
      else decode1 c1 c2 :: decode2 c2 c3 :: decode3 c3 c4 :: fromBase64 rest
  | _ => []
  end.

(** The four digits of a group, as [toBase64] computes them. *)
Definition sextet1 (x : N) : N := N.shiftr x 2.
Definition sextet2 (x y : N) : N := N.lor (N.shiftl (N.land x 3) 4) (N.shiftr y 4).
Definition sextet3 (y z : N) : N := N.lor (N.shiftl (N.land y 15) 2) (N.shiftr z 6).
Definition sextet4 (z : N) : N := N.land z 63.

(** A check of all numbers below a bound. *)
Fixpoint forall_below (n : nat) (f : nat -> bool) : bool :=
  match n with
  | O => true
  | S k => f k && forall_below k f
  end.

(** The digits are below 64 and the first byte comes back from the first
    two. *)
Definition group_check12 (x y : N) : bool :=
  ((sextet1 x <? 64) && (sextet2 x y <? 64)
   && (N.lor (N.shiftl (sextet1 x) 2) (N.shiftr (sextet2 x y) 4) =? x)
   && (N.land (sextet2 x y) 15 =? N.shiftr y 4))%N.

(** The second and third byte come back from the last three digits. *)
Definition group_check34 (y z : N) : bool :=
  ((sextet3 y z <? 64) && (sextet4 z <? 64)
   && (N.lor (N.shiftl (N.shiftr y 4) 4) (N.shiftr (sextet3 y z) 2) =? y)
   && (N.lor (N.shiftl (N.land (sextet3 y z) 3) 6) (sextet4 z) =? z))%N.

(** A digit is read back as its value and is not the padding sign. *)
Definition digit_check (v : N) : bool :=
  ((base64_value (base64_digit v) =? v)%N
   && negb (Ascii.eqb (base64_digit v) "="))%bool.

(** *** More engines used as examples *)

(** The engine fails and its stderr holds the details separator itself. *)
Definition separator_in_stderr_engine : Engine :=
  mkEngine None
    [StderrData (Buffer_from ("warning" ++ details_separator ++ "trace")); Close 1].

(** [npx] is found missing after a line was written on stderr. *)
Definition missing_binary_with_stderr_engine : Engine :=
  mkEngine None
    [StderrData (Buffer_from "npx: not found"); Error "spawn npx ENOENT"; Close (-2)].

(** [spawn] throws on the spot. *)
Definition throwing_spawn_engine : Engine :=
  mkEngine (Some (JsError "spawn E2BIG")) [StdoutData (Buffer_from "<svg>"); Close 0].

(** The engine renders, with a warning on stderr between the chunks. *)
Definition rendering_with_warning_engine : Engine :=
  mkEngine None
    [StdoutData (Buffer_from "<svg>");
     StderrData (Buffer_from "deprecated option");
     StdoutData (Buffer_from "</svg>");
     Close 0].

(** The same bytes as [rendering_engine], in one chunk. *)
Definition rendering_engine_one_chunk : Engine :=
  mkEngine None [StdoutData (Buffer_from "<svg></svg>"); Close 0].

(** The engine fails after part of the image was written. *)
Definition rejecting_after_output_engine : Engine :=
  mkEngine None
    [StdoutData (Buffer_from "<svg>");
     StderrData (Buffer_from "Parse error on line 1");
     Close 1].

(* ===================================================================== *)
(** ** The handler inside the server process *)
(* ===================================================================== *)

(** The engine above gives the handler what it has listeners for.  Lines
    43-47 leave two more things to the runtime.  [spawn] may return a child
    whose stdio streams were never created (the process table or the
    descriptor table is full): [mmdc.stdin] is then undefined and line 46
    throws a [TypeError], before the listeners of lines 54-86 are set.  And
    [mmdc.stdin] is a stream of its own that may emit ["error"] (the child
    is gone before it has read the diagram), for which no listener is ever
    registered.  An ["error"] event that no listener hears is thrown by the
    runtime as an uncaught exception, and the server process ends.

    [Server] runs the same handler against a process that can do these
    things as well: the same actions, the same responses, and next to the
    completion of the handler the error, if any, that nobody heard. *)

Module Server.

(** What [spawn] does. *)
Inductive SpawnResult :=
| SpawnThrows (e : Thrown)
| SpawnWithoutStdio (message : string)
| SpawnChild.

(** What the runtime brings up after [spawn] returned a child: an event of
    the child or of its stdout and stderr, or ["error"] on its stdin. *)
Inductive Signal :=
| ChildEvent (e : Event)
| StdinError (message : string).

Record Process := mkProcess {
  spawned : SpawnResult;
  signals : list Signal
}.

(** The object [spawn] returns. *)
Record ChildProcess := mkChild { has_stdio : bool }.

Definition SProg (A : Type) : Type :=
  Process -> list Action -> list Action * Completion A.

Definition ret {A} (a : A) : SProg A := fun _ log => (log, Normal a).

Definition bind {A B} (m : SProg A) (k : A -> SProg B) : SProg B :=
  fun p log =>
    match m p log with
    | (log', Normal a) => k a p log'
    | (log', Throw e) => (log', Throw e)
    | (log', Suspended) => (log', Suspended)
    end.

Definition throw {A} (e : Thrown) : SProg A := fun _ log => (log, Throw e).

Definition try_catch {A} (body : SProg A) (handler : Thrown -> SProg A) : SProg A :=
  fun p log =>
    match body p log with
    | (log', Throw e) => handler e p log'
    | r => r
    end.

Definition act (a : Action) : SProg unit := fun _ log => (log ++ [a], Normal tt).

Declare Scope server_scope.
Delimit Scope server_scope with server.
Notation "x <- c ;; k" := (bind c (fun x => k))
  (at level 61, c at next level, right associativity) : server_scope.
Notation "c ;; k" := (bind c (fun _ => k))
  (at level 61, right associativity) : server_scope.
Notation "'try' b 'catch' h" := (try_catch b h)
  (at level 62, b at level 61, h at level 61) : server_scope.

Local Open Scope server_scope.

(** Line 43. *)
Definition spawn (command : string) (args stdio : list string) : SProg ChildProcess :=
  fun p log =>
    match spawned p with
    | SpawnThrows e => (log ++ [Spawn command args stdio], Throw e)
    | SpawnWithoutStdio _ => (log ++ [Spawn command args stdio], Normal (mkChild false))
    | SpawnChild => (log ++ [Spawn command args stdio], Normal (mkChild true))
    end.

(** What calling [method] on a stream that is undefined throws. *)
Definition missing_stream_error (method : string) : Thrown :=
  JsError ("Cannot read properties of undefined (reading '" ++ method ++ "')").

(** [mmdc.stdin.write(..)], [mmdc.stdin.end()], [mmdc.stdout.on(..)],
    [mmdc.stderr.on(..)]: the action [a] when the child has its streams. *)
Definition on_stream (mmdc : ChildProcess) (method : string) (a : Action) : SProg unit :=
  if has_stdio mmdc then act a else throw (missing_stream_error method).

(** The events the listeners of the handler get: those of the child, up to
    an ["error"] on stdin, with which the process ends. *)
Fixpoint heard (sigs : list Signal) : list Event :=
  match sigs with
  | [] => []
  | ChildEvent e :: rest => e :: heard rest
  | StdinError _ :: _ => []
  end.

(** Lines 67-87. *)
Definition await_exit (format : Format) : SProg Locals :=
  fun p log =>
    match dispatch format (heard (signals p)) initial_locals with
    | (Resolved, v) => (log ++ [Await], Normal v)
    | (Rejected reason, _) => (log ++ [Await], Throw reason)
    | (Unsettled, _) => (log ++ [Await], Suspended)
    end.

(** Lines 22-165. *)
Definition validateMermaid (diagram : string) (format_arg : option Format) : SProg Response :=
  let format := match format_arg with Some f => f | None => png end in
  try
    (try
       (let args := mmdc_args format in
        mmdc <- spawn "npx" args ["pipe"; "pipe"; "pipe"] ;;
        on_stream mmdc "write" (StdinWrite diagram) ;;
        on_stream mmdc "end" StdinEnd ;;
        on_stream mmdc "on" ListenStdout ;;
        on_stream mmdc "on" ListenStderr ;;
        v <- await_exit format ;;
        ret (valid_response format v))
     catch (fun validationError => ret (invalid_response validationError)))
  catch (fun error => ret (system_error_response error)).

Definition run (diagram : string) (format_arg : option Format) (p : Process)
  : list Action * Completion Response :=
  validateMermaid diagram format_arg p [].

Definition outcome (diagram : string) (format_arg : option Format) (p : Process)
  : Completion Response :=
  snd (run diagram format_arg p).

Definition actions (diagram : string) (format_arg : option Format) (p : Process)
  : list Action :=
  fst (run diagram format_arg p).

(** The listener of the child's ["error"] is set by the promise of line 67. *)
Definition is_await (a : Action) : bool :=
  match a with Await => true | _ => false end.

Definition hears_child_error (log : list Action) : bool := existsb is_await log.

(** The first ["error"] that no listener hears: any on stdin, and one of the
    child when its listener was not set. *)
Fixpoint first_unheard (child_error_heard : bool) (sigs : list Signal) : option string :=
  match sigs with
  | [] => None
  | StdinError message :: _ => Some message
  | ChildEvent (Error message) :: rest =>
      if child_error_heard then first_unheard child_error_heard rest else Some message
  | ChildEvent _ :: rest => first_unheard child_error_heard rest
  end.

(** The error that ends the server process in a call, if any. *)
Definition uncaught (diagram : string) (format_arg : option Format) (p : Process)
  : option string :=
  let heard_it := hears_child_error (actions diagram format_arg p) in
  match spawned p with
  | SpawnThrows _ => None
  | SpawnWithoutStdio message => if heard_it then None else Some message
  | SpawnChild => first_unheard heard_it (signals p)
  end.

(** The run of the child comes to an end for the handler. *)
Definition ends (p : Process) : bool :=
  match spawned p with
  | SpawnChild =>
      match settling_event (heard (signals p)) with Some _ => true | None => false end
  | _ => true
  end.

(** The engine the handler sees in a process whose child has its streams. *)
Definition engine_of (p : Process) : Engine :=
  mkEngine (match spawned p with SpawnThrows e => Some e | _ => None end)
           (heard (signals p)).

(** *** Processes used as examples *)

(** The child writes a chunk and then neither closes nor fails. *)
Definition hanging_process : Process :=
  mkProcess SpawnChild [ChildEvent (StdoutData (Buffer_from "<svg>"))].

(** [spawn] throws on the spot. *)
Definition throwing_process : Process :=
  mkProcess (SpawnThrows (JsError "spawn E2BIG")) [].

(** The engine renders the diagram. *)
Definition rendering_process : Process :=
  mkProcess SpawnChild
    [ChildEvent (StdoutData (Buffer_from "<svg></svg>")); ChildEvent (Close 0)].

(** The descriptor table is full: the child comes without streams. *)
Definition exhausted_process : Process :=
  mkProcess (SpawnWithoutStdio "spawn npx EMFILE") [].

(** The child is gone before it has read the diagram. *)
Definition broken_pipe_process : Process :=
  mkProcess SpawnChild [StdinError "write EPIPE"; ChildEvent (Close 1)].

End Server.

(* ===================================================================== *)
(** ** Facts about strings *)
(* ===================================================================== *)

Section StringFacts.

Lemma append_nil_r (s : string) : (s ++ "")%string = s.
Proof. induction s as [|a s IH]; simpl; [reflexivity | now rewrite IH]. Qed.

Lemma append_assoc (s1 s2 s3 : string) :
  ((s1 ++ s2) ++ s3)%string = (s1 ++ (s2 ++ s3))%string.
Proof. induction s1 as [|a s1 IH]; simpl; [reflexivity | now rewrite IH]. Qed.

Lemma append_eq_nil (s1 s2 : string) :
  (s1 ++ s2)%string = "" -> s1 = "" /\ s2 = "".
Proof. destruct s1; simpl; intros H; [now split | discriminate]. Qed.

Lemma truthy_false_iff (s : string) : truthy s = false <-> s = "".
Proof. destruct s; simpl; split; intros H; congruence. Qed.

Lemma truthy_true_iff (s : string) : truthy s = true <-> s <> "".
Proof. destruct s; simpl; split; intros H; congruence. Qed.

Lemma free_of_append (c : ascii) (s1 s2 : string) :
  free_of c (s1 ++ s2) = free_of c s1 && free_of c s2.
Proof.
  induction s1 as [|a s1 IH]; simpl; [reflexivity|].
  now rewrite IH, andb_assoc.
Qed.

Lemma prefix_append (s rest : string) : String.prefix s (s ++ rest) = true.
Proof.
  induction s as [|a s IH]; simpl.
  - now destruct rest.
  - destruct (ascii_dec a a) as [_|ne]; [exact IH | now elim ne].
Qed.

Lemma prefix_head_mismatch (c a : ascii) (s' rest : string) :
  Ascii.eqb a c = false -> String.prefix (String c s') (String a rest) = false.
Proof.
  intros H; simpl.
  destruct (ascii_dec c a) as [e|_]; [|reflexivity].
  subst a. now rewrite Ascii.eqb_refl in H.
Qed.

End StringFacts.

(* ===================================================================== *)
(** ** Facts about [split] *)
(* ===================================================================== *)

Section SplitFacts.

Variables (c0 : ascii) (sep' : string).
Let sep := String c0 sep'.

(** [split] never gives an empty array. *)
Lemma split_from_nonempty (sp s : string) (k : nat) (piece : string) :
  split_from sp s k piece <> [].
Proof.
  revert k piece. induction s as [|a s IH]; intros k piece; cbn [split_from].
  - discriminate.
  - destruct k as [|k]; [|apply IH].
    destruct (String.prefix sp (String a s)); [discriminate | apply IH].
Qed.

(** Passing over the characters of a separator that was found. *)
Lemma split_from_skip (x rest piece : string) :
  split_from sep (x ++ rest) (String.length x) piece = split_from sep rest 0 piece.
Proof. induction x as [|a x IH]; simpl; [reflexivity | exact IH]. Qed.

(** A stretch without the first character of the separator goes to the
    current piece. *)
Lemma split_from_free (p rest piece : string) :
  free_of c0 p = true ->
  split_from sep (p ++ rest) 0 piece = split_from sep rest 0 (piece ++ p).
Proof.
  revert piece. induction p as [|a p IH]; intros piece Hfree.
  - simpl. now rewrite append_nil_r.
  - simpl in Hfree. apply andb_true_iff in Hfree as [Ha Hp].
    apply negb_true_iff in Ha.
    change (String a p ++ rest)%string with (String a (p ++ rest)).
    cbn [split_from].
    unfold sep at 1. rewrite (prefix_head_mismatch _ _ _ _ Ha).
    fold sep. rewrite (IH _ Hp), append_assoc. reflexivity.
Qed.

Lemma split_free (p : string) :
  free_of c0 p = true -> split p sep = [p].
Proof.
  intros Hfree. unfold split.
  rewrite <- (append_nil_r p) at 1.
  rewrite (split_from_free p "" "" Hfree). reflexivity.
Qed.

Lemma split_at_separator (p rest : string) :
  free_of c0 p = true ->
  split (p ++ sep ++ rest) sep = p :: split rest sep.
Proof.
  intros Hfree. unfold split.
  rewrite (split_from_free p _ "" Hfree).
  change (sep ++ rest)%string with (String c0 (sep' ++ rest)).
  cbn [split_from].
  change (String c0 (sep' ++ rest)) with (sep ++ rest)%string.
  rewrite prefix_append.
  replace (String.length sep - 1) with (String.length sep')
    by (unfold sep; simpl; now rewrite Nat.sub_0_r).
  now rewrite split_from_skip.
Qed.

End SplitFacts.

Lemma split_nonempty (s sp : string) : split s sp <> [].
Proof. apply split_from_nonempty. Qed.

(* ===================================================================== *)
(** ** Facts about the decimal rendering of the exit code *)
(* ===================================================================== *)

Lemma string_of_uint_free_of_nl (d : Decimal.uint) :
  free_of "010" (NilEmpty.string_of_uint d) = true.
Proof. induction d; simpl; auto. Qed.

Lemma Number_toString_free_of_nl (n : Z) :
  free_of "010" (Number_toString n) = true.
Proof.
  unfold Number_toString.
  destruct (Z.to_int n) as [d|d]; simpl;
    destruct d; simpl; auto using string_of_uint_free_of_nl.
Qed.

(* ===================================================================== *)
(** ** Facts about [toString] *)
(* ===================================================================== *)

Lemma utf8_lead_progress (b : byte) :
  snd (utf8_lead b) <> [] \/ needed (fst (utf8_lead b)) <> 0.
Proof. destruct b; vm_compute; (left; discriminate) || (right; discriminate). Qed.

Lemma utf8_run_needed (bs : list byte) (st : Utf8Decoder) :
  needed st <> 0 -> utf8_run st bs <> [].
Proof.
  revert st. induction bs as [|b bs IH]; intros st Hst; cbn [utf8_run].
  - destruct (needed st); [congruence | discriminate].
  - unfold utf8_step. destruct (needed st) as [|k]; [congruence|].
    destruct (in_range (lower st) (upper st) (Byte.to_N b)).
    + destruct k as [|k].
      * intros H. apply app_eq_nil in H as [H _].
        apply app_eq_nil in H as [_ H]. discriminate.
      * simpl. apply IH. simpl. discriminate.
    + destruct (utf8_lead b) as [st' out]. discriminate.
Qed.

Lemma utf8_run_cons_nonempty (b : byte) (bs : list byte) :
  utf8_run utf8_idle (b :: bs) <> [].
Proof.
  cbn [utf8_run]. change (utf8_step utf8_idle b) with (utf8_lead b).
  destruct (utf8_lead_progress b) as [H|H];
    destruct (utf8_lead b) as [st' out]; simpl in H.
  - destruct out; [congruence | discriminate].
  - intros E. apply app_eq_nil in E as [_ E]. now apply (utf8_run_needed bs st').
Qed.

(** Decoding gives the empty string for the empty buffer only. *)
Lemma toString_empty_iff (buf : Buffer) : toString buf = "" <-> buf = [].
Proof.
  split; intros H; [|now subst].
  destruct buf as [|b bs]; [reflexivity|].
  exfalso. apply (utf8_run_cons_nonempty b bs).
  unfold toString in H.
  destruct (utf8_run utf8_idle (b :: bs)); [reflexivity | discriminate].
Qed.

Lemma decode_chunks_empty_iff (chunks : list Buffer) :
  decode_chunks chunks = "" <-> List.concat chunks = [].
Proof.
  induction chunks as [|c chunks IH]; simpl; [tauto|].
  split; intros H.
  - apply append_eq_nil in H as [H1 H2].
    apply toString_empty_iff in H1. apply IH in H2. now rewrite H1, H2.
  - apply app_eq_nil in H as [H1 H2].
    apply IH in H2. subst c. now rewrite H2.
Qed.

(** Text was gathered from stderr exactly when the child wrote bytes
    there. *)
Lemma stderr_text_empty_iff (events : list Event) :
  stderr_text events = "" <-> stderr_bytes events = [].
Proof. apply decode_chunks_empty_iff. Qed.

Lemma stdout_text_empty_iff (events : list Event) :
  stdout_text events = "" <-> stdout_bytes events = [].
Proof. apply decode_chunks_empty_iff. Qed.

(* ===================================================================== *)
(** ** The event loop *)
(* ===================================================================== *)

Lemma dispatch_locals (format : Format) (events : list Event) (v : Locals) :
  snd (dispatch format events v) =
  mkLocals (outputChunks v ++ (if is_svg format then [] else stdout_chunks events))
           (svgContent v ++ (if is_svg format then stdout_text events else ""))
           (errorOutput v ++ stderr_text events).
Proof.
  revert v. induction events as [|e events IH]; intros [oc sc eo].
  - destruct format; simpl; now rewrite ?app_nil_r, ?append_nil_r.
  - destruct e as [data|data|code|msg]; cbn [dispatch snd].
    + rewrite IH. destruct format; simpl;
        now rewrite ?append_assoc, ?app_nil_r, <- ?app_assoc.
    + rewrite IH. destruct format; simpl;
        now rewrite ?append_assoc, ?app_nil_r, <- ?app_assoc.
    + destruct format; simpl; now rewrite ?app_nil_r, ?append_nil_r.
    + destruct format; simpl; now rewrite ?app_nil_r, ?append_nil_r.
Qed.

Lemma dispatch_settlement (format : Format) (events : list Event) (v : Locals) :
  fst (dispatch format events v) =
  match settling_event events with
  | Some (Exited code) => on_close code (snd (dispatch format events v))
  | Some (Failed msg) => on_error msg (snd (dispatch format events v))
  | None => Unsettled
  end.
Proof.
  revert v. induction events as [|e events IH]; intros v; [reflexivity|].
  destruct e as [data|data|code|msg]; cbn [dispatch settling_event fst snd];
    try apply IH; reflexivity.
Qed.

Lemma dispatch_initial (format : Format) (events : list Event) :
  dispatch format events initial_locals =
  (match settling_event events with
   | Some (Exited code) => on_close code (locals_at_settlement format events)
   | Some (Failed msg) => on_error msg (locals_at_settlement format events)
   | None => Unsettled
   end,
   locals_at_settlement format events).
Proof.
  rewrite (surjective_pairing (dispatch format events initial_locals)).
  rewrite dispatch_settlement, dispatch_locals. reflexivity.
Qed.

(* ===================================================================== *)
(** ** The handler, step by step *)
(* ===================================================================== *)

Lemma run_spawn_throws diagram format_arg eng e :
  spawn_throws eng = Some e ->
  run diagram format_arg eng =
  ([Spawn "npx" (mmdc_args (format_or_default format_arg)) pipes],
   Normal (invalid_response e)).
Proof.
  intros H. unfold run, validateMermaid, try_catch, bind, spawn.
  rewrite H. reflexivity.
Qed.

Lemma run_spawned diagram format_arg eng :
  spawn_throws eng = None ->
  run diagram format_arg eng =
  (full_log diagram (format_or_default format_arg),
   let format := format_or_default format_arg in
   match settling_event (emitted eng) with
   | Some (Exited code) =>
       if (code =? 0)%Z
       then Normal (valid_response format (locals_at_settlement format (emitted eng)))
       else Normal (invalid_response
              (JsError ("mermaid-cli process exited with code "
                        ++ Number_toString code
                        ++ error_details (locals_at_settlement format (emitted eng)))))
   | Some (Failed msg) =>
       Normal (invalid_response
         (JsError (msg ++ error_details (locals_at_settlement format (emitted eng)))))
   | None => Suspended
   end).
Proof.
  intros H.
  unfold run, validateMermaid, try_catch, bind, spawn, act, await_exit, ret.
  fold (format_or_default format_arg).
  rewrite H. cbn [app]. rewrite dispatch_initial.
  destruct (settling_event (emitted eng)) as [[code|msg]|];
    try reflexivity.
  unfold on_close. destruct (code =? 0)%Z; reflexivity.
Qed.

(** The responses of the inner [catch]. *)

Lemma details_separator_head :
  details_separator = String "010" (nl ++ "Error details:" ++ nl).
Proof. reflexivity. Qed.

Lemma invalid_response_parts (main e : string) :
  free_of "010" main = true ->
  invalid_response (JsError (main ++ (if truthy e then details_separator ++ e else ""))) =
  [Text "Mermaid diagram is invalid"; Text main]
    ++ (if truthy e then [detail_block e] else []).
Proof.
  intros Hfree. unfold invalid_response, message_of.
  destruct (truthy e) eqn:He.
  - assert (Hsplit : split (main ++ details_separator ++ e) details_separator
                     = main :: split e details_separator).
    { rewrite details_separator_head. now apply split_at_separator. }
    rewrite Hsplit. cbn [hd tl]. unfold detail_block.
    destruct (split e details_separator) eqn:Hs; [now apply split_nonempty in Hs|].
    reflexivity.
  - assert (Hsplit : split (main ++ "") details_separator = [main]).
    { rewrite append_nil_r, details_separator_head. now apply split_free. }
    rewrite Hsplit. reflexivity.
Qed.

Lemma invalid_response_shape (e : Thrown) : Invalid_shape (invalid_response e) = true.
Proof.
  unfold invalid_response.
  destruct (0 <? List.length (tl (split (message_of e) details_separator)))%nat;
    reflexivity.
Qed.

Lemma valid_response_shape (format : Format) (v : Locals) :
  Valid_shape (valid_response format v) = true.
Proof. destruct format; reflexivity. Qed.

Lemma shapes_exclusive_valid (r : Response) :
  Valid_shape r = true -> Invalid_shape r = false /\ SystemError_shape r = false.
Proof.
  destruct r as [|[t|d m] [|[t'|d' m'] [|b r]]]; simpl; try discriminate.
  now split.
Qed.

Lemma shapes_exclusive_invalid (r : Response) :
  Invalid_shape r = true -> Valid_shape r = false /\ SystemError_shape r = false.
Proof.
  destruct r as [|[t|d m] [|[t'|d' m'] [|[t''|d'' m''] [|b r]]]]; simpl;
    try discriminate; now split.
Qed.

Lemma shapes_exactly_one_valid (r : Response) :
  Valid_shape r = true ->
  exactly_one (Valid_shape r) (Invalid_shape r) (SystemError_shape r) = true.
Proof.
  intros H. destruct (shapes_exclusive_valid r H) as [H1 H2].
  now rewrite H, H1, H2.
Qed.

Lemma shapes_exactly_one_invalid (r : Response) :
  Invalid_shape r = true ->
  exactly_one (Valid_shape r) (Invalid_shape r) (SystemError_shape r) = true.
Proof.
  intros H. destruct (shapes_exclusive_invalid r H) as [H1 H2].
  now rewrite H, H1, H2.
Qed.

Lemma classify_valid (r : Response) : Valid_shape r = true -> classify r = ValidC.
Proof. intros H. unfold classify. now rewrite H. Qed.

Lemma classify_invalid (r : Response) : Invalid_shape r = true -> classify r = InvalidC.
Proof.
  intros H. unfold classify.
  destruct (shapes_exclusive_invalid r H) as [H1 _]. now rewrite H1, H.
Qed.

Lemma verdict_outcome diagram format_arg eng :
  verdict (outcome diagram format_arg eng) =
  verdict_of_ending (match spawn_throws eng with Some _ => true | None => false end)
                    (settling_event (emitted eng)).
Proof.
  unfold outcome. destruct (spawn_throws eng) as [e|] eqn:Hs.
  - rewrite (run_spawn_throws _ _ _ _ Hs). simpl.
    now rewrite (classify_invalid _ (invalid_response_shape e)).
  - rewrite (run_spawned _ _ _ Hs). cbn [snd verdict_of_ending].
    destruct (settling_event (emitted eng)) as [[code|msg]|];
      try reflexivity.
    + destruct (code =? 0)%Z; simpl.
      * now rewrite (classify_valid _ (valid_response_shape _ _)).
      * now rewrite (classify_invalid _ (invalid_response_shape _)).
    + simpl. now rewrite (classify_invalid _ (invalid_response_shape _)).
Qed.

(** The exit message has no line feed before the details. *)
Lemma exit_message_free_of_nl (code : Z) :
  free_of "010" ("mermaid-cli process exited with code " ++ Number_toString code) = true.
Proof.
  rewrite free_of_append, Number_toString_free_of_nl. reflexivity.
Qed.

(** A non-zero exit code: the response, in full. *)
Lemma nonzero_exit_response diagram format_arg eng code :
  spawn_throws eng = None ->
  settling_event (emitted eng) = Some (Exited code) ->
  code <> 0%Z ->
  outcome diagram format_arg eng =
  Normal ([Text "Mermaid diagram is invalid";
           Text ("mermaid-cli process exited with code " ++ Number_toString code)]
          ++ (if truthy (stderr_text (emitted eng))
              then [detail_block (stderr_text (emitted eng))]
              else [])).
Proof.
  intros Hs He Hc. unfold outcome. rewrite (run_spawned _ _ _ Hs), He.
  cbn [snd]. apply Z.eqb_neq in Hc. rewrite Hc.
  rewrite <- (invalid_response_parts _ _ (exit_message_free_of_nl code)).
  unfold error_details, locals_at_settlement. cbn [errorOutput].
  now rewrite append_assoc.
Qed.

(** Exit code 0: the response, in full. *)
Lemma zero_exit_response diagram format_arg eng :
  spawn_throws eng = None ->
  settling_event (emitted eng) = Some (Exited 0) ->
  outcome diagram format_arg eng =
  Normal [Text "Mermaid diagram is valid";
          Image (match format_or_default format_arg with
                 | svg => toBase64 (Buffer_from (stdout_text (emitted eng)))
                 | png => toBase64 (stdout_bytes (emitted eng))
                 end)
                (mime_of (format_or_default format_arg))].
Proof.
  intros Hs He. unfold outcome. rewrite (run_spawned _ _ _ Hs), He.
  cbn [snd Z.eqb]. now destruct (format_or_default format_arg).
Qed.

(** An ["error"] event: the response has the Invalid shape. *)
Lemma error_event_response diagram format_arg eng msg :
  spawn_throws eng = None ->
  settling_event (emitted eng) = Some (Failed msg) ->
  exists r, outcome diagram format_arg eng = Normal r /\ Invalid_shape r = true.
Proof.
  intros Hs He. unfold outcome. rewrite (run_spawned _ _ _ Hs), He.
  eexists; split; [reflexivity | apply invalid_response_shape].
Qed.

(* ===================================================================== *)
(** ** The properties of the specification *)
(* ===================================================================== *)

(** C1. When the child ends with a non-zero exit code, the handler answers
    with the Invalid response: the first block is the text "Mermaid diagram
    is invalid"; the second is the main error, a non-empty text made of the
    failure message with the exit code in it; a third block, the detail, is
    there if and only if text was gathered from stderr; and there is no
    further block. *)
Theorem C1_nonzero_exit_is_invalid
    (diagram : string) (format_arg : option Format) (eng : Engine) (code : Z) :
  spawn_throws eng = None ->
  settling_event (emitted eng) = Some (Exited code) ->
  code <> 0%Z ->
  let mainError :=
    ("mermaid-cli process exited with code " ++ Number_toString code)%string in
  mainError <> "" /\
  exists details,
    outcome diagram format_arg eng =
      Normal (Text "Mermaid diagram is invalid" :: Text mainError :: details) /\
    ((stderr_text (emitted eng) = "" /\ details = []) \/
     (stderr_text (emitted eng) <> "" /\
      details = [detail_block (stderr_text (emitted eng))])).
Proof.
  intros Hs He Hc mainError. split; [discriminate|].
  rewrite (nonzero_exit_response _ _ _ _ Hs He Hc). fold mainError.
  destruct (truthy (stderr_text (emitted eng))) eqn:Ht.
  - eexists; split; [reflexivity|]. right. split; [|reflexivity].
    now apply truthy_true_iff.
  - eexists; split; [reflexivity|]. left. split; [|reflexivity].
    now apply truthy_false_iff.
Qed.

Lemma C1_nonzero_exit_is_invalid_witness :
  "mermaid-cli process exited with code 1" <> "" /\
  exists details,
    outcome "this is not mermaid syntax {{{" None rejecting_engine =
      Normal (Text "Mermaid diagram is invalid"
              :: Text "mermaid-cli process exited with code 1" :: details) /\
    ((stderr_text (emitted rejecting_engine) = "" /\ details = []) \/
     (stderr_text (emitted rejecting_engine) <> "" /\
      details = [detail_block (stderr_text (emitted rejecting_engine))])).
Proof.
  apply (C1_nonzero_exit_is_invalid
           "this is not mermaid syntax {{{" None rejecting_engine 1);
    [reflexivity | reflexivity | discriminate].
Defined.

(** C2, at the input where the handler departs from it.  The child writes
    the thirteen bytes of an SVG whose text holds U+00E9 and exits with code 0;
    the pipe delivers them in two chunks cut inside that character.  With
    format svg each chunk is decoded on its own, the two halves of the
    character each become U+FFFD, and the image data is the base64 of the
    seventeen bytes that result, not of the bytes the child wrote.  With
    format png the same run gives the base64 of the bytes written. *)
Theorem C2_svg_chunk_boundary_changes_image :
  stdout_bytes (emitted split_character_engine)
    = Buffer_from "<svg>" ++ [xc3; xa9] ++ Buffer_from "</svg>" /\
  toBase64 (stdout_bytes (emitted split_character_engine)) = "PHN2Zz7DqTwvc3ZnPg==" /\
  outcome "graph TD; A-->B;" (Some svg) split_character_engine
    = Normal [Text "Mermaid diagram is valid";
              Image "PHN2Zz7vv73vv708L3N2Zz4=" "image/svg+xml"] /\
  outcome "graph TD; A-->B;" (Some png) split_character_engine
    = Normal [Text "Mermaid diagram is valid";
              Image "PHN2Zz7DqTwvc3ZnPg==" "image/png"].
Proof. repeat split; reflexivity. Qed.

(** The part of C2 that holds: for png the image is the base64 of the
    bytes written to stdout, whatever the chunks. *)
Lemma zero_exit_png diagram eng :
  spawn_throws eng = None ->
  settling_event (emitted eng) = Some (Exited 0) ->
  outcome diagram (Some png) eng =
  Normal [Text "Mermaid diagram is valid";
          Image (toBase64 (stdout_bytes (emitted eng))) "image/png"].
Proof. intros Hs He. now rewrite (zero_exit_response _ _ _ Hs He). Qed.

Lemma Buffer_from_append (s1 s2 : string) :
  Buffer_from (s1 ++ s2) = Buffer_from s1 ++ Buffer_from s2.
Proof.
  unfold Buffer_from, list_byte_of_string.
  induction s1 as [|a s1 IH]; simpl; [reflexivity | now rewrite IH].
Qed.

Lemma decode_chunks_well_formed (chunks : list Buffer) :
  Forall well_formed_chunk chunks ->
  Buffer_from (decode_chunks chunks) = List.concat chunks.
Proof.
  induction 1 as [|c chunks Hc _ IH]; simpl; [reflexivity|].
  now rewrite Buffer_from_append, Hc, IH.
Qed.

(** For svg the image is the base64 of the bytes written to stdout when
    every chunk is well-formed UTF-8 on its own. *)
Lemma zero_exit_svg_well_formed diagram eng :
  spawn_throws eng = None ->
  settling_event (emitted eng) = Some (Exited 0) ->
  Forall well_formed_chunk (stdout_chunks (emitted eng)) ->
  outcome diagram (Some svg) eng =
  Normal [Text "Mermaid diagram is valid";
          Image (toBase64 (stdout_bytes (emitted eng))) "image/svg+xml"].
Proof.
  intros Hs He Hwf. rewrite (zero_exit_response _ _ _ Hs He). simpl.
  unfold stdout_text. now rewrite (decode_chunks_well_formed _ Hwf).
Qed.

(** C3, at the input where the handler departs from it.  [npx] cannot be
    found: the child emits ["error"] with the message of the failed spawn.
    The handler returns at once, but with the Invalid response of two
    blocks, not with the single block of a system error. *)
Theorem C3_missing_binary_answered_as_invalid :
  outcome "graph TD; A-->B;" None missing_binary_engine
    = Normal [Text "Mermaid diagram is invalid"; Text "spawn npx ENOENT"] /\
  classify [Text "Mermaid diagram is invalid"; Text "spawn npx ENOENT"] = InvalidC /\
  SystemError_shape [Text "Mermaid diagram is invalid"; Text "spawn npx ENOENT"] = false.
Proof. repeat split; reflexivity. Qed.

(** No way for the child to fail gives the system-error response: when
    [spawn] throws, and when the child emits ["error"], the inner [catch]
    answers. *)
Lemma failure_to_start_is_invalid diagram format_arg eng :
  (spawn_throws eng <> None \/
   exists msg, settling_event (emitted eng) = Some (Failed msg)) ->
  exists r, outcome diagram format_arg eng = Normal r /\ classify r = InvalidC.
Proof.
  intros H. destruct (spawn_throws eng) as [e|] eqn:Hs.
  - unfold outcome. rewrite (run_spawn_throws _ _ _ _ Hs).
    eexists; split; [reflexivity|].
    apply classify_invalid, invalid_response_shape.
  - destruct H as [H|[msg He]]; [congruence|].
    destruct (error_event_response diagram format_arg eng msg Hs He) as [r [Hr Hi]].
    exists r. split; [exact Hr | now apply classify_invalid].
Qed.

(** Against an engine, the handler never lets an exception out, and it returns a response
    of exactly one of the three shapes as soon as the run of the child comes
    to an end for it ([spawn] throws, or the child emits ["close"] or
    ["error"]); it is still waiting only when none of these has happened. *)
Lemma outcome_never_throws
    (diagram : string) (format_arg : option Format) (eng : Engine) :
  (forall e, outcome diagram format_arg eng <> Throw e) /\
  (ends eng = true ->
   exists r, outcome diagram format_arg eng = Normal r /\
             exactly_one (Valid_shape r) (Invalid_shape r) (SystemError_shape r) = true) /\
  (outcome diagram format_arg eng = Suspended -> ends eng = false).
Proof.
  unfold outcome, ends. destruct (spawn_throws eng) as [e|] eqn:Hs.
  - rewrite (run_spawn_throws _ _ _ _ Hs). cbn [snd].
    repeat split; try discriminate.
    intros _. eexists; split; [reflexivity|].
    apply shapes_exactly_one_invalid, invalid_response_shape.
  - rewrite (run_spawned _ _ _ Hs). cbn [snd].
    destruct (settling_event (emitted eng)) as [[code|msg]|].
    + destruct (code =? 0)%Z; repeat split; try discriminate; intros _;
        eexists; (split; [reflexivity|]).
      * apply shapes_exactly_one_valid, valid_response_shape.
      * apply shapes_exactly_one_invalid, invalid_response_shape.
    + repeat split; try discriminate. intros _.
      eexists; split; [reflexivity|].
      apply shapes_exactly_one_invalid, invalid_response_shape.
    + repeat split; (discriminate || reflexivity).
Qed.

(** The first action of every call is the one [spawn], with the arguments
    built for the format. *)
Lemma actions_head diagram format_arg eng :
  exists rest,
    actions diagram format_arg eng
      = Spawn "npx" (mmdc_args (format_or_default format_arg)) pipes :: rest /\
    forallb (fun a => negb (is_spawn a)) rest = true.
Proof.
  unfold actions. destruct (spawn_throws eng) as [e|] eqn:Hs.
  - rewrite (run_spawn_throws _ _ _ _ Hs). now exists [].
  - rewrite (run_spawned _ _ _ Hs). eexists; split; reflexivity.
Qed.

(** C5. Every call invokes the engine once, as [npx] with these arguments:
    the package, ["-i" "-"] (read stdin), ["-o" "-"] (write stdout),
    ["-e"] and the format, and then ["-b" "transparent"] if and only if
    the format is png.  No device path appears among them. *)
Theorem C5_engine_invocation
    (diagram : string) (format_arg : option Format) (eng : Engine) :
  let format := format_or_default format_arg in
  (exists rest,
     actions diagram format_arg eng = Spawn "npx" (mmdc_args format) pipes :: rest /\
     forallb (fun a => negb (is_spawn a)) rest = true) /\
  mmdc_args format =
    ["@mermaid-js/mermaid-cli"; "-i"; "-"; "-o"; "-"; "-e"; Format_str format]
      ++ (if is_png format then ["-b"; "transparent"] else []) /\
  (In "-b" (mmdc_args format) <-> format = png) /\
  (In "transparent" (mmdc_args format) <-> format = png).
Proof.
  intros format. split; [apply actions_head|].
  destruct format; cbn; repeat split; try discriminate; try reflexivity;
    intros H; try (repeat (destruct H as [H|H]; try discriminate); now destruct H);
    intuition.
Qed.

(** C6. A call without the format field does what the same call with
    format "png" does; the handler's own default is png as well; and the
    schema accepts "svg" and "png" and no other string. *)
Theorem C6_format_defaults_to_png
    (diagram : option string) (eng : Engine) :
  callTool (mkRaw diagram None) eng = callTool (mkRaw diagram (Some "png")) eng /\
  (forall d, run d None eng = run d (Some png) eng) /\
  parse_format None = Some png /\
  parse_format (Some "svg") = Some svg /\
  parse_format (Some "png") = Some png /\
  (forall s, parse_format (Some s) <> None <-> s = "svg" \/ s = "png").
Proof.
  repeat split; try reflexivity.
  - intros H. unfold parse_format in H.
    destruct (String.eqb_spec s "svg") as [E|_]; [now left|].
    destruct (String.eqb_spec s "png") as [E|_]; [now right|].
    now elim H.
  - intros [E|E]; subst s; discriminate.
Qed.

(** In a call in which [spawn] returns a child, the handler writes the
    whole diagram to the child's stdin, then ends stdin, and only after that
    awaits the exit: the log of the call is the six actions below, with one
    write and one end. *)
Lemma actions_when_spawned
    (diagram : string) (format_arg : option Format) (eng : Engine) :
  spawn_throws eng = None ->
  actions diagram format_arg eng =
    [ Spawn "npx" (mmdc_args (format_or_default format_arg)) pipes;
      StdinWrite diagram; StdinEnd; ListenStdout; ListenStderr; Await ] /\
  List.length (filter is_write (actions diagram format_arg eng)) = 1 /\
  List.length (filter is_end (actions diagram format_arg eng)) = 1.
Proof.
  intros Hs. unfold actions. rewrite (run_spawned _ _ _ Hs).
  repeat split; reflexivity.
Qed.

(** A message in which the separator occurs splits into two pieces at
    least. *)
Lemma split_from_separator_length (c0 : ascii) (sep' a b piece : string) :
  2 <= List.length (split_from (String c0 sep') (a ++ String c0 sep' ++ b) 0 piece).
Proof.
  revert piece. induction a as [|x a IH]; intros piece.
  - change ("" ++ String c0 sep' ++ b)%string with (String c0 (sep' ++ b)).
    cbn [split_from].
    change (String c0 (sep' ++ b)) with (String c0 sep' ++ b)%string.
    rewrite prefix_append. cbn [List.length].
    pose proof (split_from_nonempty (String c0 sep') (sep' ++ b)
                  (String.length (String c0 sep') - 1) "") as Hne.
    destruct (split_from _ _ _ _); [congruence | simpl; lia].
  - change (String x a ++ String c0 sep' ++ b)%string
      with (String x (a ++ String c0 sep' ++ b)).
    cbn [split_from].
    destruct (String.prefix _ _).
    + cbn [List.length].
      pose proof (split_from_nonempty (String c0 sep') (a ++ String c0 sep' ++ b)
                    (String.length (String c0 sep') - 1) "") as Hne.
      destruct (split_from _ _ _ _); [congruence | simpl; lia].
    + apply IH.
Qed.

Lemma invalid_response_with_details_length (msg e : string) :
  List.length (invalid_response (JsError (msg ++ details_separator ++ e))) = 3.
Proof.
  unfold invalid_response, message_of.
  pose proof (split_from_separator_length "010" (nl ++ "Error details:" ++ nl) msg e "")
    as Hlen.
  rewrite <- details_separator_head in Hlen. fold (split (msg ++ details_separator ++ e) details_separator) in Hlen.
  destruct (split (msg ++ details_separator ++ e) details_separator)
    as [|p1 [|p2 ps]]; simpl in Hlen; try lia.
  reflexivity.
Qed.

Lemma block_count_outcome diagram format_arg eng :
  block_count (outcome diagram format_arg eng) =
  block_count_of_ending (spawn_throws eng) (settling_event (emitted eng))
                        (match stderr_bytes (emitted eng) with [] => false | _ => true end).
Proof.
  assert (Hseen : truthy (stderr_text (emitted eng))
                  = match stderr_bytes (emitted eng) with [] => false | _ => true end).
  { destruct (stderr_bytes (emitted eng)) eqn:Hb.
    - apply truthy_false_iff, stderr_text_empty_iff, Hb.
    - apply truthy_true_iff. intros H. apply stderr_text_empty_iff in H. congruence. }
  rewrite <- Hseen. clear Hseen.
  unfold outcome. destruct (spawn_throws eng) as [e|] eqn:Hs.
  - now rewrite (run_spawn_throws _ _ _ _ Hs).
  - rewrite (run_spawned _ _ _ Hs). cbn [snd block_count_of_ending].
    destruct (settling_event (emitted eng)) as [[code|msg]|]; [| |reflexivity].
    + destruct (code =? 0)%Z.
      * now destruct (format_or_default format_arg).
      * unfold error_details, locals_at_settlement. cbn [errorOutput block_count].
        rewrite <- append_assoc.
        rewrite (invalid_response_parts _ _ (exit_message_free_of_nl code)).
        now destruct (truthy (stderr_text (emitted eng))).
    + unfold error_details, locals_at_settlement. cbn [errorOutput block_count].
      destruct (truthy (stderr_text (emitted eng))).
      * now rewrite invalid_response_with_details_length.
      * now rewrite append_nil_r.
Qed.

(** C8. Two calls with the same diagram and format, against engines that
    behave alike ([spawn] throws the same or not at all, the run ends with
    the same event and exit code, and the same bytes were written on stdout
    and on stderr, in whatever chunks and order), end the same way: the same
    class of response, with the same number of blocks. *)
Theorem C8_classification_deterministic
    (diagram : string) (format_arg : option Format) (eng1 eng2 : Engine) :
  spawn_throws eng1 = spawn_throws eng2 ->
  settling_event (emitted eng1) = settling_event (emitted eng2) ->
  stdout_bytes (emitted eng1) = stdout_bytes (emitted eng2) ->
  stderr_bytes (emitted eng1) = stderr_bytes (emitted eng2) ->
  verdict (outcome diagram format_arg eng1) = verdict (outcome diagram format_arg eng2) /\
  block_count (outcome diagram format_arg eng1)
    = block_count (outcome diagram format_arg eng2).
Proof.
  intros Hs He _ Herr. split.
  - now rewrite !verdict_outcome, Hs, He.
  - now rewrite !block_count_outcome, Hs, He, Herr.
Qed.

Lemma C8_classification_deterministic_witness :
  verdict (outcome "this is not mermaid syntax {{{" None rejecting_engine)
    = verdict (outcome "this is not mermaid syntax {{{" None rejecting_engine_rechunked) /\
  block_count (outcome "this is not mermaid syntax {{{" None rejecting_engine)
    = block_count (outcome "this is not mermaid syntax {{{" None rejecting_engine_rechunked).
Proof.
  apply (C8_classification_deterministic
           "this is not mermaid syntax {{{" None
           rejecting_engine rejecting_engine_rechunked); reflexivity.
Defined.

(** C10. When the child exits with code 0 the response is the Valid one
    whatever was written on stdout, and when nothing at all was written the
    image block holds the empty string: the handler does not look at the
    output before it answers. *)
Theorem C10_empty_output_still_valid
    (diagram : string) (format_arg : option Format) (eng : Engine) :
  spawn_throws eng = None ->
  settling_event (emitted eng) = Some (Exited 0) ->
  (exists data,
     outcome diagram format_arg eng =
       Normal [Text "Mermaid diagram is valid";
               Image data (mime_of (format_or_default format_arg))]) /\
  (stdout_bytes (emitted eng) = [] ->
   outcome diagram format_arg eng =
     Normal [Text "Mermaid diagram is valid";
             Image "" (mime_of (format_or_default format_arg))]).
Proof.
  intros Hs He. rewrite (zero_exit_response _ _ _ Hs He).
  split; [eexists; reflexivity|].
  intros Hb. destruct (format_or_default format_arg).
  - apply stdout_text_empty_iff in Hb. now rewrite Hb.
  - now rewrite Hb.
Qed.

Lemma C10_empty_output_still_valid_witness :
  (exists data,
     outcome "graph TD; A-->B;" None silent_engine =
       Normal [Text "Mermaid diagram is valid"; Image data "image/png"]) /\
  outcome "graph TD; A-->B;" None silent_engine =
    Normal [Text "Mermaid diagram is valid"; Image "" "image/png"].
Proof.
  destruct (C10_empty_output_still_valid "graph TD; A-->B;" None silent_engine)
    as [Hvalid Hempty]; [reflexivity | reflexivity |].
  split; [exact Hvalid | apply Hempty; reflexivity].
Defined.

(* ===================================================================== *)
(** ** The primitives on small inputs *)
(* ===================================================================== *)

Example toString_ascii : toString ["<"%byte; "s"%byte; "v"%byte; "g"%byte; ">"%byte] = "<svg>".
Proof. reflexivity. Qed.

Example toString_two_byte : Buffer_from (toString [xc3; xa9]) = [xc3; xa9].
Proof. reflexivity. Qed.

Example toString_truncated : Buffer_from (toString [xc3]) = [xef; xbf; xbd].
Proof. reflexivity. Qed.

Example toString_stray_continuation : Buffer_from (toString [xa9; "a"%byte]) = [xef; xbf; xbd; "a"%byte].
Proof. reflexivity. Qed.

Example toBase64_Man : toBase64 ["M"%byte; "a"%byte; "n"%byte] = "TWFu".
Proof. reflexivity. Qed.

Example toBase64_Ma : toBase64 ["M"%byte; "a"%byte] = "TWE=".
Proof. reflexivity. Qed.

Example toBase64_M : toBase64 ["M"%byte] = "TQ==".
Proof. reflexivity. Qed.

Example split_two : split "a--b--c" "--" = ["a"; "b"; "c"].
Proof. reflexivity. Qed.

Example split_trailing : split "a--" "--" = ["a"; ""].
Proof. reflexivity. Qed.

Example split_absent : split "abc" "--" = ["abc"].
Proof. reflexivity. Qed.

Example split_empty : split "" "--" = [""].
Proof. reflexivity. Qed.

Example split_overlap : split "a---b" "--" = ["a"; "-b"].
Proof. reflexivity. Qed.

Example Number_toString_1 : Number_toString 1 = "1".
Proof. reflexivity. Qed.

Example Number_toString_0 : Number_toString 0 = "0".
Proof. reflexivity. Qed.

Example Number_toString_neg : Number_toString (-2) = "-2".
Proof. reflexivity. Qed.

Example Number_toString_137 : Number_toString 137 = "137".
Proof. reflexivity. Qed.

(* ===================================================================== *)
(** ** The handler on whole runs *)
(* ===================================================================== *)

Example run_rendering_png :
  run "graph TD; A-->B;" None rendering_engine =
  ([ Spawn "npx"
       ["@mermaid-js/mermaid-cli"; "-i"; "-"; "-o"; "-"; "-e"; "png"; "-b"; "transparent"]
       ["pipe"; "pipe"; "pipe"];
     StdinWrite "graph TD; A-->B;"; StdinEnd; ListenStdout; ListenStderr; Await ],
   Normal [Text "Mermaid diagram is valid"; Image "PHN2Zz48L3N2Zz4=" "image/png"]).
Proof. reflexivity. Qed.

Example run_rendering_svg :
  run "graph TD; A-->B;" (Some svg) rendering_engine =
  ([ Spawn "npx"
       ["@mermaid-js/mermaid-cli"; "-i"; "-"; "-o"; "-"; "-e"; "svg"]
       ["pipe"; "pipe"; "pipe"];
     StdinWrite "graph TD; A-->B;"; StdinEnd; ListenStdout; ListenStderr; Await ],
   Normal [Text "Mermaid diagram is valid"; Image "PHN2Zz48L3N2Zz4=" "image/svg+xml"]).
Proof. reflexivity. Qed.

Example outcome_rejecting :
  outcome "this is not mermaid syntax {{{" None rejecting_engine =
  Normal [Text "Mermaid diagram is invalid";
          Text "mermaid-cli process exited with code 1";
          Text ("Detailed error output:" ++ nl ++ "Parse error on line 1")].
Proof. reflexivity. Qed.

Example outcome_spawn_throws :
  run "graph TD; A-->B;" None (mkEngine (Some (JsError "spawn E2BIG")) []) =
  ([ Spawn "npx" (mmdc_args png) pipes ],
   Normal [Text "Mermaid diagram is invalid"; Text "spawn E2BIG"]).
Proof. reflexivity. Qed.

Example outcome_child_never_ends :
  outcome "graph TD; A-->B;" None (mkEngine None [StdoutData (Buffer_from "<svg>")])
  = Suspended.
Proof. reflexivity. Qed.

Example callTool_unknown_format :
  callTool (mkRaw (Some "graph TD; A-->B;") (Some "pdf")) rendering_engine = None.
Proof. reflexivity. Qed.

Example callTool_missing_diagram :
  callTool (mkRaw None None) rendering_engine = None.
Proof. reflexivity. Qed.

(* ===================================================================== *)
(** ** Further properties of the handler *)
(* ===================================================================== *)

(** *** More on [split] *)

Lemma split_from_no_occurrence (sep s piece : string) :
  occurs sep s = false -> split_from sep s 0 piece = [(piece ++ s)%string].
Proof.
  revert piece. induction s as [|a s IH]; intros piece H.
  - simpl. now rewrite append_nil_r.
  - cbn [occurs] in H. apply orb_false_iff in H as [Hp Hs].
    cbn [split_from]. rewrite Hp, (IH _ Hs), append_assoc. reflexivity.
Qed.

Lemma split_no_occurrence (s sep : string) :
  occurs sep s = false -> split s sep = [s].
Proof. intros H. unfold split. now rewrite (split_from_no_occurrence _ _ "" H). Qed.

Lemma split_from_occurs_before (sep a rest piece : string) :
  occurs_before sep a rest = false ->
  split_from sep (a ++ rest) 0 piece = split_from sep rest 0 (piece ++ a).
Proof.
  revert piece. induction a as [|x a IH]; intros piece H.
  - simpl. now rewrite append_nil_r.
  - cbn [occurs_before] in H. apply orb_false_iff in H as [Hp Ha].
    change (String x a ++ rest)%string with (String x (a ++ rest)) in *.
    cbn [split_from]. rewrite Hp, (IH _ Ha), append_assoc. reflexivity.
Qed.

Lemma split_first_occurrence (c0 : ascii) (sep' a b : string) :
  occurs_before (String c0 sep') a (String c0 sep' ++ b) = false ->
  split (a ++ String c0 sep' ++ b) (String c0 sep') = a :: split b (String c0 sep').
Proof.
  intros H. unfold split. rewrite (split_from_occurs_before _ _ _ "" H).
  change (String c0 sep' ++ b)%string with (String c0 (sep' ++ b)).
  cbn [split_from].
  change (String c0 (sep' ++ b)) with (String c0 sep' ++ b)%string.
  rewrite prefix_append.
  replace (String.length (String c0 sep') - 1) with (String.length sep')
    by (simpl; now rewrite Nat.sub_0_r).
  now rewrite split_from_skip.
Qed.

Lemma free_of_occurs_before (c0 : ascii) (sep' a rest : string) :
  free_of c0 a = true -> occurs_before (String c0 sep') a rest = false.
Proof.
  induction a as [|x a IH]; intros H; [reflexivity|].
  simpl in H. apply andb_true_iff in H as [Hx Ha]. apply negb_true_iff in Hx.
  cbn [occurs_before].
  change (String x a ++ rest)%string with (String x (a ++ rest)).
  now rewrite (prefix_head_mismatch _ _ _ _ Hx), (IH Ha).
Qed.

(** *** The responses to a failure *)

(** X1. When the child emits ["error"] before any ["close"] and the
    message of the error has no line feed, the response is the Invalid one
    with that message as its second block, and with a third block made of
    the stderr text exactly when some was read before the error. *)
Theorem error_event_response_exact
    (diagram : string) (format_arg : option Format) (eng : Engine) (msg : string) :
  spawn_throws eng = None ->
  settling_event (emitted eng) = Some (Failed msg) ->
  free_of "010" msg = true ->
  outcome diagram format_arg eng =
  Normal ([Text "Mermaid diagram is invalid"; Text msg]
          ++ (if truthy (stderr_text (emitted eng))
              then [detail_block (stderr_text (emitted eng))]
              else [])).
Proof.
  intros Hs He Hfree. unfold outcome. rewrite (run_spawned _ _ _ Hs), He.
  cbn [snd]. unfold error_details, locals_at_settlement. cbn [errorOutput].
  now rewrite (invalid_response_parts _ _ Hfree).
Qed.

Lemma error_event_response_exact_witness :
  outcome "graph TD; A-->B;" None missing_binary_with_stderr_engine =
  Normal [Text "Mermaid diagram is invalid"; Text "spawn npx ENOENT";
          Text ("Detailed error output:" ++ nl ++ "npx: not found")].
Proof.
  apply (error_event_response_exact "graph TD; A-->B;" None
           missing_binary_with_stderr_engine "spawn npx ENOENT"); reflexivity.
Defined.

(** X2. When [spawn] itself throws, the handler does nothing more to the
    outside (no write to stdin, no listener, no await) and answers with the
    Invalid response carrying the message of what was thrown; the events of
    the engine play no part. *)
Theorem spawn_throw_response
    (diagram : string) (format_arg : option Format) (eng : Engine) (e : Thrown) :
  spawn_throws eng = Some e ->
  occurs details_separator (message_of e) = false ->
  run diagram format_arg eng =
  ([Spawn "npx" (mmdc_args (format_or_default format_arg)) pipes],
   Normal [Text "Mermaid diagram is invalid"; Text (message_of e)]).
Proof.
  intros Hs Hocc. rewrite (run_spawn_throws _ _ _ _ Hs).
  unfold invalid_response. now rewrite (split_no_occurrence _ _ Hocc).
Qed.

Lemma spawn_throw_response_witness :
  run "graph TD; A-->B;" (Some svg) throwing_spawn_engine =
  ([Spawn "npx" (mmdc_args svg) pipes],
   Normal [Text "Mermaid diagram is invalid"; Text "spawn E2BIG"]).
Proof.
  apply (spawn_throw_response "graph TD; A-->B;" (Some svg) throwing_spawn_engine
           (JsError "spawn E2BIG")); reflexivity.
Defined.

(** X3. Whatever the engine does, a response of the handler is the Valid
    or the Invalid one, of two or three blocks: the single-block response of
    the outer [catch] is never given. *)
Theorem response_is_valid_or_invalid
    (diagram : string) (format_arg : option Format) (eng : Engine) (r : Response) :
  outcome diagram format_arg eng = Normal r ->
  (classify r = ValidC \/ classify r = InvalidC) /\
  SystemError_shape r = false /\
  (List.length r = 2 \/ List.length r = 3).
Proof.
  intros Hr.
  assert (Hshape : Valid_shape r = true \/ Invalid_shape r = true).
  { unfold outcome in Hr. destruct (spawn_throws eng) as [e|] eqn:Hs.
    - rewrite (run_spawn_throws _ _ _ _ Hs) in Hr. injection Hr as <-.
      right. apply invalid_response_shape.
    - rewrite (run_spawned _ _ _ Hs) in Hr. cbn [snd] in Hr.
      destruct (settling_event (emitted eng)) as [[code|msg]|]; [| |discriminate].
      + destruct (code =? 0)%Z; injection Hr as <-.
        * left. apply valid_response_shape.
        * right. apply invalid_response_shape.
      + injection Hr as <-. right. apply invalid_response_shape. }
  destruct Hshape as [H|H].
  - destruct (shapes_exclusive_valid r H) as [_ Hsys].
    repeat split; [left; now apply classify_valid | exact Hsys |].
    destruct r as [|[t|d m] [|[t'|d' m'] [|b r]]]; try discriminate. now left.
  - destruct (shapes_exclusive_invalid r H) as [_ Hsys].
    repeat split; [right; now apply classify_invalid | exact Hsys |].
    destruct r as [|[t|d m] [|[t'|d' m'] [|[t''|d'' m''] [|b r]]]];
      try discriminate; [now left | now right].
Qed.

Lemma response_is_valid_or_invalid_witness :
  (classify [Text "Mermaid diagram is invalid"; Text "spawn npx ENOENT"] = ValidC \/
   classify [Text "Mermaid diagram is invalid"; Text "spawn npx ENOENT"] = InvalidC) /\
  SystemError_shape [Text "Mermaid diagram is invalid"; Text "spawn npx ENOENT"] = false /\
  (List.length [Text "Mermaid diagram is invalid"; Text "spawn npx ENOENT"] = 2 \/
   List.length [Text "Mermaid diagram is invalid"; Text "spawn npx ENOENT"] = 3).
Proof.
  apply (response_is_valid_or_invalid "graph TD; A-->B;" None missing_binary_engine).
  reflexivity.
Defined.

(** X4. A response holds an image block exactly when [spawn] returned a
    child and the child closed with exit code 0 before any ["error"]: no
    image is ever given for a failed run. *)
Theorem image_iff_exit_zero
    (diagram : string) (format_arg : option Format) (eng : Engine) (r : Response) :
  outcome diagram format_arg eng = Normal r ->
  (has_image r = true <->
   spawn_throws eng = None /\ settling_event (emitted eng) = Some (Exited 0)).
Proof.
  intros Hr.
  assert (Hinv : forall e, has_image (invalid_response e) = false).
  { intros e. unfold invalid_response.
    now destruct (0 <? List.length (tl (split (message_of e) details_separator)))%nat. }
  unfold outcome in Hr. destruct (spawn_throws eng) as [e|] eqn:Hs.
  - rewrite (run_spawn_throws _ _ _ _ Hs) in Hr. injection Hr as <-.
    rewrite Hinv. split; [discriminate | intros [H _]; discriminate].
  - rewrite (run_spawned _ _ _ Hs) in Hr. cbn [snd] in Hr.
    destruct (settling_event (emitted eng)) as [[code|msg]|]; [| |discriminate].
    + destruct (code =? 0)%Z eqn:Hc; injection Hr as <-.
      * apply Z.eqb_eq in Hc. subst code.
        split; [now split|]. intros _. now destruct (format_or_default format_arg).
      * apply Z.eqb_neq in Hc. rewrite Hinv.
        split; [discriminate | intros [_ H]; congruence].
    + injection Hr as <-. rewrite Hinv.
      split; [discriminate | intros [_ H]; discriminate].
Qed.

Lemma image_iff_exit_zero_witness :
  has_image [Text "Mermaid diagram is valid"; Image "PHN2Zz48L3N2Zz4=" "image/png"] = true <->
  spawn_throws rendering_engine = None /\
  settling_event (emitted rendering_engine) = Some (Exited 0).
Proof.
  apply (image_iff_exit_zero "graph TD; A-->B;" None rendering_engine).
  reflexivity.
Defined.

(** X5. After a non-zero exit code, the third block gives the stderr text
    as it was read, after the line "Detailed error output:", provided the
    text does not hold the details separator. *)
Theorem detail_block_verbatim
    (diagram : string) (format_arg : option Format) (eng : Engine) (code : Z) :
  spawn_throws eng = None ->
  settling_event (emitted eng) = Some (Exited code) ->
  code <> 0%Z ->
  stderr_text (emitted eng) <> "" ->
  occurs details_separator (stderr_text (emitted eng)) = false ->
  outcome diagram format_arg eng =
  Normal [Text "Mermaid diagram is invalid";
          Text ("mermaid-cli process exited with code " ++ Number_toString code);
          Text ("Detailed error output:" ++ nl ++ stderr_text (emitted eng))].
Proof.
  intros Hs He Hc Hne Hocc. rewrite (nonzero_exit_response _ _ _ _ Hs He Hc).
  apply truthy_true_iff in Hne. rewrite Hne.
  unfold detail_block. now rewrite (split_no_occurrence _ _ Hocc).
Qed.

Lemma detail_block_verbatim_witness :
  outcome "this is not mermaid syntax {{{" None rejecting_engine =
  Normal [Text "Mermaid diagram is invalid";
          Text "mermaid-cli process exited with code 1";
          Text ("Detailed error output:" ++ nl ++ "Parse error on line 1")].
Proof.
  apply (detail_block_verbatim "this is not mermaid syntax {{{" None rejecting_engine 1);
    [reflexivity | reflexivity | discriminate | discriminate | reflexivity].
Defined.

(** X6. When the stderr text holds the details separator itself, the
    third block does not give it back as read: the separator is replaced
    by a single line feed. *)
Theorem detail_block_separator_replaced
    (diagram : string) (format_arg : option Format) (eng : Engine) (code : Z)
    (a b : string) :
  spawn_throws eng = None ->
  settling_event (emitted eng) = Some (Exited code) ->
  code <> 0%Z ->
  stderr_text (emitted eng) = (a ++ details_separator ++ b)%string ->
  occurs_before details_separator a (details_separator ++ b) = false ->
  occurs details_separator b = false ->
  outcome diagram format_arg eng =
  Normal [Text "Mermaid diagram is invalid";
          Text ("mermaid-cli process exited with code " ++ Number_toString code);
          Text ("Detailed error output:" ++ nl ++ a ++ nl ++ b)].
Proof.
  intros Hs He Hc Htext Ha Hb. rewrite (nonzero_exit_response _ _ _ _ Hs He Hc).
  rewrite Htext.
  assert (Ht : truthy (a ++ details_separator ++ b) = true)
    by (destruct a; reflexivity).
  rewrite Ht. unfold detail_block.
  assert (Hsplit : split (a ++ details_separator ++ b) details_separator = [a; b]).
  { rewrite details_separator_head in *.
    rewrite (split_first_occurrence _ _ _ _ Ha).
    now rewrite (split_no_occurrence _ _ Hb). }
  rewrite Hsplit. reflexivity.
Qed.

Lemma detail_block_separator_replaced_witness :
  outcome "this is not mermaid syntax {{{" None separator_in_stderr_engine =
  Normal [Text "Mermaid diagram is invalid";
          Text "mermaid-cli process exited with code 1";
          Text ("Detailed error output:" ++ nl ++ "warning" ++ nl ++ "trace")].
Proof.
  apply (detail_block_separator_replaced
           "this is not mermaid syntax {{{" None separator_in_stderr_engine 1
           "warning" "trace");
    [reflexivity | reflexivity | discriminate | reflexivity | reflexivity | reflexivity].
Defined.

(** X7. After a non-zero exit code, the response has three blocks when the
    child wrote at least one byte on stderr, and two when it wrote none. *)
Theorem nonzero_exit_block_count
    (diagram : string) (format_arg : option Format) (eng : Engine) (code : Z) :
  spawn_throws eng = None ->
  settling_event (emitted eng) = Some (Exited code) ->
  code <> 0%Z ->
  block_count (outcome diagram format_arg eng) =
  Some (match stderr_bytes (emitted eng) with [] => 2 | _ :: _ => 3 end).
Proof.
  intros Hs He Hc. rewrite block_count_outcome, Hs, He. cbn.
  apply Z.eqb_neq in Hc. rewrite Hc.
  now destruct (stderr_bytes (emitted eng)).
Qed.

Lemma nonzero_exit_block_count_witness :
  block_count (outcome "this is not mermaid syntax {{{" None rejecting_engine) = Some 3.
Proof.
  apply (nonzero_exit_block_count "this is not mermaid syntax {{{" None rejecting_engine 1);
    [reflexivity | reflexivity | discriminate].
Defined.

(** *** What the decoder gives out *)

Lemma clean_nil : clean [].
Proof. intros rest. reflexivity. Qed.

Lemma clean_app (l1 l2 : list byte) : clean l1 -> clean l2 -> clean (l1 ++ l2).
Proof.
  intros H1 H2 rest. now rewrite <- !app_assoc, H1, H2.
Qed.

Lemma clean_replacement : clean replacement.
Proof. intros rest. reflexivity. Qed.

Lemma utf8_inv_idle : utf8_inv utf8_idle.
Proof. intros rest. reflexivity. Qed.

(** A lead byte: what is given out is clean and the state is consistent. *)
Lemma utf8_lead_clean (b : byte) :
  clean (snd (utf8_lead b)) /\ utf8_inv (fst (utf8_lead b)).
Proof. destruct b; split; intros rest; reflexivity. Qed.

Lemma utf8_step_clean (st : Utf8Decoder) (b : byte) :
  utf8_inv st ->
  clean (snd (utf8_step st b)) /\ utf8_inv (fst (utf8_step st b)).
Proof.
  intros Hinv. unfold utf8_step.
  destruct (needed st) as [|k] eqn:Hn; [apply utf8_lead_clean|].
  destruct (in_range (lower st) (upper st) (Byte.to_N b)) eqn:Hr.
  - destruct k as [|k]; cbn [fst snd].
    + split; [|apply utf8_inv_idle].
      intros rest. rewrite <- app_assoc. cbn [app].
      rewrite (Hinv (b :: rest)). cbn [utf8_run]. unfold utf8_step.
      now rewrite Hn, Hr, <- app_assoc.
    + split; [apply clean_nil|].
      intros rest. cbn [pending]. rewrite <- app_assoc. cbn [app].
      rewrite (Hinv (b :: rest)). cbn [utf8_run]. unfold utf8_step.
      now rewrite Hn, Hr.
  - destruct (utf8_lead_clean b) as [Hc Hi].
    destruct (utf8_lead b) as [st' out]. cbn [fst snd] in *.
    split; [apply clean_app; [apply clean_replacement | exact Hc] | exact Hi].
Qed.

Lemma utf8_run_clean (bs : list byte) (st : Utf8Decoder) :
  utf8_inv st -> clean (utf8_run st bs).
Proof.
  revert st. induction bs as [|b bs IH]; intros st Hinv; cbn [utf8_run].
  - destruct (needed st); [apply clean_nil | apply clean_replacement].
  - destruct (utf8_step_clean st b Hinv) as [Hc Hi].
    destruct (utf8_step st b) as [st' out]. cbn [fst snd] in *.
    apply clean_app; [exact Hc | now apply IH].
Qed.

Lemma clean_well_formed (l : list byte) : clean l -> well_formed_chunk l.
Proof.
  intros H. unfold well_formed_chunk, Buffer_from, toString.
  rewrite list_byte_of_string_of_list_byte.
  specialize (H []). rewrite app_nil_r in H. rewrite H. cbn [utf8_run needed utf8_idle].
  apply app_nil_r.
Qed.

Lemma Buffer_from_toString (buf : Buffer) :
  Buffer_from (toString buf) = utf8_run utf8_idle buf.
Proof. unfold Buffer_from, toString. apply list_byte_of_string_of_list_byte. Qed.

Lemma decode_chunks_clean (chunks : list Buffer) :
  clean (Buffer_from (decode_chunks chunks)).
Proof.
  induction chunks as [|c chunks IH]; simpl; [apply clean_nil|].
  rewrite Buffer_from_append, Buffer_from_toString.
  apply clean_app; [apply utf8_run_clean, utf8_inv_idle | exact IH].
Qed.

(** Decoding, encoding and decoding again changes nothing more. *)
Lemma toString_stable (buf : Buffer) : well_formed_chunk (Buffer_from (toString buf)).
Proof.
  rewrite Buffer_from_toString.
  apply clean_well_formed, utf8_run_clean, utf8_inv_idle.
Qed.

(** X8. For svg and exit code 0, the bytes encoded in the image block are
    always well-formed UTF-8, whatever bytes the child wrote and however
    they were cut into chunks: decoding them gives them back unchanged. *)
Theorem svg_image_is_well_formed_text
    (diagram : string) (eng : Engine) :
  spawn_throws eng = None ->
  settling_event (emitted eng) = Some (Exited 0) ->
  exists bytes,
    outcome diagram (Some svg) eng =
      Normal [Text "Mermaid diagram is valid";
              Image (toBase64 bytes) "image/svg+xml"] /\
    Buffer_from (toString bytes) = bytes.
Proof.
  intros Hs He. exists (Buffer_from (stdout_text (emitted eng))). split.
  - now rewrite (zero_exit_response _ _ _ Hs He).
  - apply clean_well_formed, decode_chunks_clean.
Qed.

Lemma svg_image_is_well_formed_text_witness :
  exists bytes,
    outcome "graph TD; A-->B;" (Some svg) split_character_engine =
      Normal [Text "Mermaid diagram is valid";
              Image (toBase64 bytes) "image/svg+xml"] /\
    Buffer_from (toString bytes) = bytes.
Proof.
  apply (svg_image_is_well_formed_text "graph TD; A-->B;" split_character_engine);
    reflexivity.
Defined.

Lemma ascii_clean (buf : Buffer) :
  forallb is_ascii_byte buf = true -> utf8_run utf8_idle buf = buf.
Proof.
  induction buf as [|b buf IH]; intros H; [reflexivity|].
  cbn [forallb] in H. apply andb_true_iff in H as [Hb Hbuf].
  cbn [utf8_run]. change (utf8_step utf8_idle b) with (utf8_lead b).
  unfold utf8_lead. unfold is_ascii_byte in Hb. rewrite Hb.
  cbn [app]. now rewrite (IH Hbuf).
Qed.

Lemma ascii_well_formed (buf : Buffer) :
  forallb is_ascii_byte buf = true -> well_formed_chunk buf.
Proof.
  intros H. unfold well_formed_chunk. now rewrite Buffer_from_toString, ascii_clean.
Qed.

Lemma forallb_concat {A} (f : A -> bool) (ls : list (list A)) :
  forallb f (List.concat ls) = true -> Forall (fun l => forallb f l = true) ls.
Proof.
  induction ls as [|l ls IH]; simpl; intros H; [constructor|].
  rewrite forallb_app in H. apply andb_true_iff in H as [H1 H2].
  constructor; [exact H1 | now apply IH].
Qed.

(** X9. For svg and exit code 0, when every byte the child wrote on stdout
    is ASCII, the image data is the base64 of exactly those bytes, however
    they were cut into chunks. *)
Theorem svg_ascii_output_exact
    (diagram : string) (eng : Engine) :
  spawn_throws eng = None ->
  settling_event (emitted eng) = Some (Exited 0) ->
  forallb is_ascii_byte (stdout_bytes (emitted eng)) = true ->
  outcome diagram (Some svg) eng =
  Normal [Text "Mermaid diagram is valid";
          Image (toBase64 (stdout_bytes (emitted eng))) "image/svg+xml"].
Proof.
  intros Hs He Hascii. apply (zero_exit_svg_well_formed _ _ Hs He).
  apply forallb_concat in Hascii.
  eapply Forall_impl; [|exact Hascii].
  intros c Hc. now apply ascii_well_formed.
Qed.

Lemma svg_ascii_output_exact_witness :
  outcome "graph TD; A-->B;" (Some svg) rendering_engine =
  Normal [Text "Mermaid diagram is valid";
          Image (toBase64 (stdout_bytes (emitted rendering_engine))) "image/svg+xml"].
Proof.
  apply (svg_ascii_output_exact "graph TD; A-->B;" rendering_engine); reflexivity.
Defined.

(** *** What the response depends on *)

Lemma dispatch_app_settled (format : Format) (events later : list Event) (v : Locals) :
  settling_event events <> None ->
  dispatch format (events ++ later) v = dispatch format events v.
Proof.
  revert v. induction events as [|e events IH]; intros v H; [now elim H|].
  destruct e as [data|data|code|msg]; cbn [app dispatch];
    try reflexivity; apply IH; exact H.
Qed.

(** X10. The promise settles once: whatever the child emits after the
    first ["close"] or ["error"] (a ["close"] after an ["error"], more
    data) changes neither the response nor what the handler does. *)
Theorem later_events_ignored
    (diagram : string) (format_arg : option Format)
    (thrown : option Thrown) (events later : list Event) :
  settling_event events <> None ->
  run diagram format_arg (mkEngine thrown (events ++ later)) =
  run diagram format_arg (mkEngine thrown events).
Proof.
  intros H. unfold run, validateMermaid, try_catch, bind, spawn, act, await_exit.
  cbn [spawn_throws emitted]. now rewrite (dispatch_app_settled _ _ _ _ H).
Qed.

Lemma later_events_ignored_witness :
  run "graph TD; A-->B;" None
      (mkEngine None ([Error "spawn npx ENOENT"] ++ [Close 0])) =
  run "graph TD; A-->B;" None (mkEngine None [Error "spawn npx ENOENT"]).
Proof.
  apply (later_events_ignored "graph TD; A-->B;" None None
           [Error "spawn npx ENOENT"] [Close 0]).
  discriminate.
Defined.

(** X11. With exit code 0 the response is made of the stdout chunks alone:
    what the child wrote on stderr (warnings) is dropped, and the diagram
    plays no part. *)
Theorem success_ignores_stderr
    (diagram1 diagram2 : string) (format_arg : option Format) (eng1 eng2 : Engine) :
  spawn_throws eng1 = None -> spawn_throws eng2 = None ->
  settling_event (emitted eng1) = Some (Exited 0) ->
  settling_event (emitted eng2) = Some (Exited 0) ->
  stdout_chunks (emitted eng1) = stdout_chunks (emitted eng2) ->
  outcome diagram1 format_arg eng1 = outcome diagram2 format_arg eng2.
Proof.
  intros Hs1 Hs2 He1 He2 Hout.
  rewrite (zero_exit_response _ _ _ Hs1 He1), (zero_exit_response _ _ _ Hs2 He2).
  unfold stdout_text, stdout_bytes. now rewrite Hout.
Qed.

Lemma success_ignores_stderr_witness :
  outcome "graph TD; A-->B;" (Some svg) rendering_engine =
  outcome "graph LR; A-->B;" (Some svg) rendering_with_warning_engine.
Proof.
  apply (success_ignores_stderr "graph TD; A-->B;" "graph LR; A-->B;" (Some svg)
           rendering_engine rendering_with_warning_engine); reflexivity.
Defined.

(** X12. With a non-zero exit code the response is made of the exit code
    and the stderr chunks alone: what the child had written on stdout is
    dropped, and neither the format nor the diagram plays a part. *)
Theorem failure_ignores_stdout
    (diagram1 diagram2 : string) (format_arg1 format_arg2 : option Format)
    (eng1 eng2 : Engine) (code : Z) :
  spawn_throws eng1 = None -> spawn_throws eng2 = None ->
  settling_event (emitted eng1) = Some (Exited code) ->
  settling_event (emitted eng2) = Some (Exited code) ->
  code <> 0%Z ->
  stderr_chunks (emitted eng1) = stderr_chunks (emitted eng2) ->
  outcome diagram1 format_arg1 eng1 = outcome diagram2 format_arg2 eng2.
Proof.
  intros Hs1 Hs2 He1 He2 Hc Herr.
  rewrite (nonzero_exit_response _ _ _ _ Hs1 He1 Hc),
          (nonzero_exit_response _ _ _ _ Hs2 He2 Hc).
  unfold stderr_text. now rewrite Herr.
Qed.

Lemma failure_ignores_stdout_witness :
  outcome "this is not mermaid syntax {{{" None rejecting_engine =
  outcome "neither is this" (Some svg) rejecting_after_output_engine.
Proof.
  apply (failure_ignores_stdout "this is not mermaid syntax {{{" "neither is this"
           None (Some svg) rejecting_engine rejecting_after_output_engine 1);
    [reflexivity | reflexivity | reflexivity | reflexivity | discriminate | reflexivity].
Defined.

(** X13. For png and exit code 0 the response depends on the bytes
    written on stdout only, not on how they were cut into chunks. *)
Theorem png_response_independent_of_chunking
    (diagram : string) (format_arg : option Format) (eng1 eng2 : Engine) :
  format_or_default format_arg = png ->
  spawn_throws eng1 = None -> spawn_throws eng2 = None ->
  settling_event (emitted eng1) = Some (Exited 0) ->
  settling_event (emitted eng2) = Some (Exited 0) ->
  stdout_bytes (emitted eng1) = stdout_bytes (emitted eng2) ->
  outcome diagram format_arg eng1 = outcome diagram format_arg eng2.
Proof.
  intros Hf Hs1 Hs2 He1 He2 Hout.
  rewrite (zero_exit_response _ _ _ Hs1 He1), (zero_exit_response _ _ _ Hs2 He2).
  now rewrite Hf, Hout.
Qed.

Lemma png_response_independent_of_chunking_witness :
  outcome "graph TD; A-->B;" None rendering_engine =
  outcome "graph TD; A-->B;" None rendering_engine_one_chunk.
Proof.
  apply (png_response_independent_of_chunking "graph TD; A-->B;" None
           rendering_engine rendering_engine_one_chunk); reflexivity.
Defined.


Lemma Number_toString_inj (n m : Z) : Number_toString n = Number_toString m -> n = m.
Proof.
  unfold Number_toString. intros H.
  assert (Hnn : forall z, Z.to_int z <> Decimal.Pos Decimal.Nil /\
                          Z.to_int z <> Decimal.Neg Decimal.Nil).
  { intros [|p|p]; simpl; split; try discriminate;
      intros E; injection E as E; now apply DecimalPos.Unsigned.to_uint_nonnil in E. }
  apply DecimalZ.to_int_inj.
  destruct (Hnn n) as [Hn1 Hn2]. destruct (Hnn m) as [Hm1 Hm2].
  pose proof (NilZero.isi _ Hn1 Hn2) as En.
  pose proof (NilZero.isi _ Hm1 Hm2) as Em.
  rewrite H in En. rewrite En in Em. now injection Em.
Qed.

(** X16. The exit code can be read back from the response: two runs that
    end with different non-zero exit codes get different responses. *)
Theorem exit_code_recoverable
    (diagram1 diagram2 : string) (format_arg1 format_arg2 : option Format)
    (eng1 eng2 : Engine) (code1 code2 : Z) :
  spawn_throws eng1 = None -> spawn_throws eng2 = None ->
  settling_event (emitted eng1) = Some (Exited code1) ->
  settling_event (emitted eng2) = Some (Exited code2) ->
  code1 <> 0%Z -> code2 <> 0%Z ->
  outcome diagram1 format_arg1 eng1 = outcome diagram2 format_arg2 eng2 ->
  code1 = code2.
Proof.
  intros Hs1 Hs2 He1 He2 Hc1 Hc2.
  rewrite (nonzero_exit_response _ _ _ _ Hs1 He1 Hc1),
          (nonzero_exit_response _ _ _ _ Hs2 He2 Hc2).
  intros H. injection H as H _. now apply Number_toString_inj.
Qed.

Lemma exit_code_recoverable_witness : 1%Z = 1%Z.
Proof.
  apply (exit_code_recoverable
           "this is not mermaid syntax {{{" "neither is this" None (Some svg)
           rejecting_engine rejecting_after_output_engine 1 1);
    [reflexivity | reflexivity | reflexivity | reflexivity
    | discriminate | discriminate | reflexivity].
Defined.

(** *** The image data loses nothing *)

Lemma forall_below_spec (n : nat) (f : nat -> bool) :
  forall_below n f = true -> forall i, i < n -> f i = true.
Proof.
  induction n as [|n IH]; intros H i Hi; [lia|].
  cbn [forall_below] in H. apply andb_true_iff in H as [Hn Hrest].
  destruct (Nat.eq_dec i n) as [->|Hne]; [exact Hn | apply IH; [exact Hrest | lia]].
Qed.

Lemma byte_as_nat (x : byte) :
  Byte.to_N x = N.of_nat (Byte.to_nat x) /\ Byte.to_nat x < 256.
Proof.
  split; [apply Byte.to_N_via_nat|].
  pose proof (Byte.to_nat_bounded x). lia.
Qed.

Lemma all_pairs_of_bytes (check : N -> N -> bool) :
  forall_below 256 (fun i => forall_below 256 (fun j =>
    check (N.of_nat i) (N.of_nat j))) = true ->
  forall x y : byte, check (Byte.to_N x) (Byte.to_N y) = true.
Proof.
  intros H x y.
  destruct (byte_as_nat x) as [-> Hx]. destruct (byte_as_nat y) as [-> Hy].
  pose proof (forall_below_spec _ _ H _ Hx) as Hrow. cbv beta in Hrow.
  exact (forall_below_spec _ _ Hrow _ Hy).
Qed.

Lemma group_check12_all (x y : byte) :
  group_check12 (Byte.to_N x) (Byte.to_N y) = true.
Proof. apply all_pairs_of_bytes. vm_compute. reflexivity. Qed.

Lemma group_check34_all (y z : byte) :
  group_check34 (Byte.to_N y) (Byte.to_N z) = true.
Proof. apply all_pairs_of_bytes. vm_compute. reflexivity. Qed.

Lemma digit_check_all (v : N) : (v < 64)%N -> digit_check v = true.
Proof.
  intros Hv.
  assert (H : forall_below 64 (fun i => digit_check (N.of_nat i)) = true)
    by (vm_compute; reflexivity).
  rewrite <- (N2Nat.id v). apply (forall_below_spec _ _ H). lia.
Qed.

Lemma value_digit (v : N) : (v < 64)%N -> base64_value (base64_digit v) = v.
Proof.
  intros Hv. pose proof (digit_check_all v Hv) as H.
  unfold digit_check in H. apply andb_true_iff in H as [H _]. now apply N.eqb_eq.
Qed.

Lemma digit_not_padding (v : N) : (v < 64)%N -> Ascii.eqb (base64_digit v) "=" = false.
Proof.
  intros Hv. pose proof (digit_check_all v Hv) as H.
  unfold digit_check in H. apply andb_true_iff in H as [_ H]. now apply negb_true_iff.
Qed.

Lemma byte_of_to_N (x : byte) : byte_of (Byte.to_N x) = x.
Proof. unfold byte_of. now rewrite Byte.of_to_N. Qed.

Lemma group12_facts (x y : byte) :
  (sextet1 (Byte.to_N x) < 64)%N /\
  (sextet2 (Byte.to_N x) (Byte.to_N y) < 64)%N /\
  N.lor (N.shiftl (sextet1 (Byte.to_N x)) 2)
        (N.shiftr (sextet2 (Byte.to_N x) (Byte.to_N y)) 4) = Byte.to_N x /\
  N.land (sextet2 (Byte.to_N x) (Byte.to_N y)) 15 = N.shiftr (Byte.to_N y) 4.
Proof.
  pose proof (group_check12_all x y) as H. unfold group_check12 in H.
  repeat (apply andb_true_iff in H as [H ?]).
  repeat split; (now apply N.ltb_lt) || (now apply N.eqb_eq).
Qed.

Lemma group34_facts (y z : byte) :
  (sextet3 (Byte.to_N y) (Byte.to_N z) < 64)%N /\
  (sextet4 (Byte.to_N z) < 64)%N /\
  N.lor (N.shiftl (N.shiftr (Byte.to_N y) 4) 4)
        (N.shiftr (sextet3 (Byte.to_N y) (Byte.to_N z)) 2) = Byte.to_N y /\
  N.lor (N.shiftl (N.land (sextet3 (Byte.to_N y) (Byte.to_N z)) 3) 6)
        (sextet4 (Byte.to_N z)) = Byte.to_N z.
Proof.
  pose proof (group_check34_all y z) as H. unfold group_check34 in H.
  repeat (apply andb_true_iff in H as [H ?]).
  repeat split; (now apply N.ltb_lt) || (now apply N.eqb_eq).
Qed.

Lemma decode1_sextets (x y : byte) :
  decode1 (base64_digit (sextet1 (Byte.to_N x)))
          (base64_digit (sextet2 (Byte.to_N x) (Byte.to_N y))) = x.
Proof.
  destruct (group12_facts x y) as (H1 & H2 & H3 & _).
  unfold decode1. rewrite (value_digit _ H1), (value_digit _ H2), H3.
  apply byte_of_to_N.
Qed.

Lemma decode2_sextets (x y z : byte) :
  decode2 (base64_digit (sextet2 (Byte.to_N x) (Byte.to_N y)))
          (base64_digit (sextet3 (Byte.to_N y) (Byte.to_N z))) = y.
Proof.
  destruct (group12_facts x y) as (_ & H2 & _ & H4).
  destruct (group34_facts y z) as (H5 & _ & H7 & _).
  unfold decode2. rewrite (value_digit _ H2), (value_digit _ H5), H4, H7.
  apply byte_of_to_N.
Qed.

Lemma decode3_sextets (y z : byte) :
  decode3 (base64_digit (sextet3 (Byte.to_N y) (Byte.to_N z)))
          (base64_digit (sextet4 (Byte.to_N z))) = z.
Proof.
  destruct (group34_facts y z) as (H5 & H6 & _ & H8).
  unfold decode3. rewrite (value_digit _ H5), (value_digit _ H6), H8.
  apply byte_of_to_N.
Qed.

Lemma sextet2_last (x : N) : N.shiftl (N.land x 3) 4 = sextet2 x (Byte.to_N x00).
Proof. unfold sextet2. cbn [Byte.to_N]. now rewrite N.shiftr_0_l, N.lor_0_r. Qed.

Lemma sextet3_last (y : N) : N.shiftl (N.land y 15) 2 = sextet3 y (Byte.to_N x00).
Proof. unfold sextet3. cbn [Byte.to_N]. now rewrite N.shiftr_0_l, N.lor_0_r. Qed.

Lemma list_ind3 {A} (P : list A -> Prop) :
  P [] -> (forall a, P [a]) -> (forall a b, P [a; b]) ->
  (forall a b c rest, P rest -> P (a :: b :: c :: rest)) ->
  forall l, P l.
Proof.
  intros H0 H1 H2 H3.
  fix IH 1. intros [|a [|b [|c rest]]].
  - exact H0.
  - apply H1.
  - apply H2.
  - apply H3, IH.
Qed.

(** Reading the image data back gives the bytes that were encoded. *)
Lemma fromBase64_toBase64 (buf : Buffer) : fromBase64 (toBase64 buf) = buf.
Proof.
  induction buf as [|a|a b|a b c rest IH] using list_ind3.
  - reflexivity.
  - cbn [toBase64]. rewrite sextet2_last. fold (sextet1 (Byte.to_N a)).
    cbn [fromBase64]. rewrite Ascii.eqb_refl. now rewrite decode1_sextets.
  - cbn [toBase64]. rewrite sextet3_last.
    fold (sextet1 (Byte.to_N a)) (sextet2 (Byte.to_N a) (Byte.to_N b)).
    cbn [fromBase64].
    destruct (group34_facts b x00) as (H3 & _).
    rewrite (digit_not_padding _ H3), Ascii.eqb_refl.
    now rewrite decode1_sextets, decode2_sextets.
  - cbn [toBase64].
    fold (sextet1 (Byte.to_N a)) (sextet2 (Byte.to_N a) (Byte.to_N b))
         (sextet3 (Byte.to_N b) (Byte.to_N c)) (sextet4 (Byte.to_N c)).
    cbn [fromBase64].
    destruct (group34_facts b c) as (H3 & H4 & _).
    rewrite (digit_not_padding _ H3), (digit_not_padding _ H4).
    now rewrite decode1_sextets, decode2_sextets, decode3_sextets, IH.
Qed.

Lemma toBase64_inj (buf1 buf2 : Buffer) : toBase64 buf1 = toBase64 buf2 -> buf1 = buf2.
Proof.
  intros H. rewrite <- (fromBase64_toBase64 buf1), <- (fromBase64_toBase64 buf2).
  now rewrite H.
Qed.

Lemma toBase64_length (buf : Buffer) :
  String.length (toBase64 buf) = 4 * ((List.length buf + 2) / 3).
Proof.
  induction buf as [|a|a b|a b c rest IH] using list_ind3; try reflexivity.
  cbn [toBase64 String.length List.length]. rewrite IH.
  replace (S (S (S (List.length rest))) + 2) with (List.length rest + 2 + 1 * 3) by lia.
  rewrite Nat.div_add by discriminate. lia.
Qed.

(** X17. For png the response loses nothing of what the child wrote on
    stdout: two runs that end with exit code 0 and get the same response
    wrote the same bytes. *)
Theorem png_output_recoverable
    (diagram1 diagram2 : string) (format_arg : option Format) (eng1 eng2 : Engine) :
  format_or_default format_arg = png ->
  spawn_throws eng1 = None -> spawn_throws eng2 = None ->
  settling_event (emitted eng1) = Some (Exited 0) ->
  settling_event (emitted eng2) = Some (Exited 0) ->
  outcome diagram1 format_arg eng1 = outcome diagram2 format_arg eng2 ->
  stdout_bytes (emitted eng1) = stdout_bytes (emitted eng2).
Proof.
  intros Hf Hs1 Hs2 He1 He2.
  rewrite (zero_exit_response _ _ _ Hs1 He1), (zero_exit_response _ _ _ Hs2 He2), Hf.
  intros H. injection H as H. now apply toBase64_inj.
Qed.

Lemma png_output_recoverable_witness :
  stdout_bytes (emitted rendering_engine) = stdout_bytes (emitted rendering_engine_one_chunk).
Proof.
  apply (png_output_recoverable "graph TD; A-->B;" "graph TD; A-->B;" None
           rendering_engine rendering_engine_one_chunk); reflexivity.
Defined.

(** X18. For png and exit code 0 the image data has four characters for
    every three bytes written on stdout, the last group padded: its length
    is four times the number of bytes divided by three, rounded up. *)
Theorem png_image_data_length
    (diagram : string) (format_arg : option Format) (eng : Engine) :
  format_or_default format_arg = png ->
  spawn_throws eng = None ->
  settling_event (emitted eng) = Some (Exited 0) ->
  exists data,
    outcome diagram format_arg eng =
      Normal [Text "Mermaid diagram is valid"; Image data "image/png"] /\
    String.length data = 4 * ((List.length (stdout_bytes (emitted eng)) + 2) / 3).
Proof.
  intros Hf Hs He. rewrite (zero_exit_response _ _ _ Hs He), Hf.
  eexists; split; [reflexivity | apply toBase64_length].
Qed.

Lemma png_image_data_length_witness :
  exists data,
    outcome "graph TD; A-->B;" None rendering_engine =
      Normal [Text "Mermaid diagram is valid"; Image data "image/png"] /\
    String.length data = 4 * ((List.length (stdout_bytes (emitted rendering_engine)) + 2) / 3).
Proof.
  apply (png_image_data_length "graph TD; A-->B;" None rendering_engine); reflexivity.
Defined.

(* ===================================================================== *)
(** ** The handler inside the server process: properties *)
(* ===================================================================== *)

(** With a child that has its streams, or with none, the handler does in the
    process what it does against the engine made of the events it hears. *)
Lemma server_run_refines diagram format_arg (p : Server.Process) :
  (forall m, Server.spawned p <> Server.SpawnWithoutStdio m) ->
  Server.run diagram format_arg p = run diagram format_arg (Server.engine_of p).
Proof.
  intros Hstdio. destruct p as [[e|m|] sigs].
  - reflexivity.
  - now elim (Hstdio m).
  - unfold Server.run, Server.validateMermaid, Server.try_catch, Server.bind,
      Server.spawn, Server.on_stream, Server.act, Server.await_exit, Server.ret.
    unfold run, validateMermaid, try_catch, bind, spawn, act, await_exit, ret.
    cbn [Server.spawned Server.signals Server.has_stdio Server.engine_of
         spawn_throws emitted app].
    destruct (dispatch _ _ _) as [[|reason|] v]; reflexivity.
Qed.

(** With a child without streams, line 46 throws and the inner [catch]
    answers; nothing was written. *)
Lemma server_run_without_stdio diagram format_arg (p : Server.Process) m :
  Server.spawned p = Server.SpawnWithoutStdio m ->
  Server.run diagram format_arg p =
  ([Spawn "npx" (mmdc_args (format_or_default format_arg)) pipes],
   Normal [Text "Mermaid diagram is invalid";
           Text "Cannot read properties of undefined (reading 'write')"]).
Proof.
  intros H. unfold Server.run, Server.validateMermaid, Server.try_catch, Server.bind,
    Server.spawn. rewrite H. reflexivity.
Qed.

Lemma first_unheard_none (sigs : list Server.Signal) :
  (forall m, ~ In (Server.StdinError m) sigs) ->
  Server.first_unheard true sigs = None.
Proof.
  induction sigs as [|[e|m] sigs IH]; intros H; [reflexivity | |].
  - assert (IH' : Server.first_unheard true sigs = None)
      by (apply IH; intros m Hin; apply (H m); now right).
    destruct e; exact IH'.
  - elim (H m). now left.
Qed.

(** C4, as the code has it.  No exception thrown in the body of the handler
    (by [spawn], by a child without streams, by the rejected promise) gets
    out of it.  The handler returns a response of exactly one of the three
    shapes once the run of the child has come to an end for it ([spawn]
    throws or gives a child without streams, or the child emits ["close"] or
    ["error"]), and it goes on awaiting, without returning, as long as the
    child has emitted neither.  In a run in which the child has its streams
    and its stdin emits no ["error"], no error goes unheard.  What an
    ["error"] on stdin, or on a child without streams, does to the server
    is not part of the statement. *)
Theorem C4_exceptions_of_the_body_are_caught
    (diagram : string) (format_arg : option Format) (p : Server.Process) :
  (forall e, Server.outcome diagram format_arg p <> Throw e) /\
  (Server.ends p = true ->
   exists r, Server.outcome diagram format_arg p = Normal r /\
             exactly_one (Valid_shape r) (Invalid_shape r) (SystemError_shape r) = true) /\
  (Server.ends p = false -> Server.outcome diagram format_arg p = Suspended) /\
  ((forall m, Server.spawned p <> Server.SpawnWithoutStdio m) ->
   (forall m, ~ In (Server.StdinError m) (Server.signals p)) ->
   Server.uncaught diagram format_arg p = None).
Proof.
  unfold Server.outcome, Server.uncaught, Server.actions, Server.ends.
  destruct (Server.spawned p) as [e|m|] eqn:Hsp.
  - assert (Hst : forall m, Server.spawned p <> Server.SpawnWithoutStdio m)
      by (intros m; rewrite Hsp; discriminate).
    rewrite (server_run_refines _ _ _ Hst).
    assert (Hs : spawn_throws (Server.engine_of p) = Some e)
      by (unfold Server.engine_of; now rewrite Hsp).
    rewrite (run_spawn_throws _ _ _ _ Hs). cbn [snd].
    repeat split; try discriminate.
    intros _. eexists; split; [reflexivity|].
    apply shapes_exactly_one_invalid, invalid_response_shape.
  - rewrite (server_run_without_stdio _ _ _ _ Hsp). cbn [snd].
    repeat split; try discriminate.
    + intros _. eexists; split; reflexivity.
    + intros H. now elim (H m).
  - assert (Hst : forall m, Server.spawned p <> Server.SpawnWithoutStdio m)
      by (intros m; rewrite Hsp; discriminate).
    rewrite (server_run_refines _ _ _ Hst).
    assert (Hs : spawn_throws (Server.engine_of p) = None)
      by (unfold Server.engine_of; now rewrite Hsp).
    rewrite (run_spawned _ _ _ Hs). cbn [fst snd].
    change (emitted (Server.engine_of p)) with (Server.heard (Server.signals p)).
    split; [|split; [|split]].
    + intros e. destruct (settling_event _) as [[code|msg]|];
        [destruct (code =? 0)%Z | |]; discriminate.
    + destruct (settling_event _) as [[code|msg]|]; [| |discriminate]; intros _.
      * destruct (code =? 0)%Z; eexists; (split; [reflexivity|]).
        -- apply shapes_exactly_one_valid, valid_response_shape.
        -- apply shapes_exactly_one_invalid, invalid_response_shape.
      * eexists; split; [reflexivity|].
        apply shapes_exactly_one_invalid, invalid_response_shape.
    + destruct (settling_event _) as [[code|msg]|]; [discriminate | discriminate |].
      reflexivity.
    + intros _ Hquiet. cbn. now apply first_unheard_none.
Qed.

Lemma C4_exceptions_of_the_body_are_caught_witness :
  (exists r, Server.outcome "graph TD; A-->B;" None Server.rendering_process = Normal r /\
             exactly_one (Valid_shape r) (Invalid_shape r) (SystemError_shape r) = true) /\
  Server.uncaught "graph TD; A-->B;" None Server.rendering_process = None.
Proof.
  destruct (C4_exceptions_of_the_body_are_caught
              "graph TD; A-->B;" None Server.rendering_process)
    as (_ & Hreturns & _ & Hquiet).
  split.
  - apply Hreturns. reflexivity.
  - apply Hquiet.
    + intros m. discriminate.
    + intros m [H|[H|[]]]; discriminate.
Defined.

(** C4 as the specification has it fails: the child writes a chunk and
    then neither closes nor fails, and the handler never returns. *)
Lemma C4_child_that_never_ends :
  Server.outcome "graph TD; A-->B;" None Server.hanging_process = Suspended /\
  ~ (exists r, Server.outcome "graph TD; A-->B;" None Server.hanging_process = Normal r).
Proof. split; [reflexivity | intros [r H]; discriminate]. Qed.

(** C7, as the code has it.  In a call in which [spawn] returns a child
    with its streams the handler writes the whole diagram to the child's
    stdin, then ends stdin, once each, and only then awaits the exit; in a
    call in which [spawn] throws, or returns a child without streams, it
    writes nothing and ends nothing. *)
Theorem C7_write_then_end_once_per_child
    (diagram : string) (format_arg : option Format) (p : Server.Process) :
  Server.actions diagram format_arg p =
    match Server.spawned p with
    | Server.SpawnChild =>
        [ Spawn "npx" (mmdc_args (format_or_default format_arg)) pipes;
          StdinWrite diagram; StdinEnd; ListenStdout; ListenStderr; Await ]
    | _ => [ Spawn "npx" (mmdc_args (format_or_default format_arg)) pipes ]
    end /\
  List.length (filter is_write (Server.actions diagram format_arg p)) =
    match Server.spawned p with Server.SpawnChild => 1 | _ => 0 end /\
  List.length (filter is_end (Server.actions diagram format_arg p)) =
    match Server.spawned p with Server.SpawnChild => 1 | _ => 0 end.
Proof.
  unfold Server.actions. destruct (Server.spawned p) as [e|m|] eqn:Hsp.
  - assert (Hst : forall m, Server.spawned p <> Server.SpawnWithoutStdio m)
      by (intros m; rewrite Hsp; discriminate).
    rewrite (server_run_refines _ _ _ Hst).
    assert (Hs : spawn_throws (Server.engine_of p) = Some e)
      by (unfold Server.engine_of; now rewrite Hsp).
    rewrite (run_spawn_throws _ _ _ _ Hs). repeat split; reflexivity.
  - rewrite (server_run_without_stdio _ _ _ _ Hsp). repeat split; reflexivity.
  - assert (Hst : forall m, Server.spawned p <> Server.SpawnWithoutStdio m)
      by (intros m; rewrite Hsp; discriminate).
    rewrite (server_run_refines _ _ _ Hst).
    assert (Hs : spawn_throws (Server.engine_of p) = None)
      by (unfold Server.engine_of; now rewrite Hsp).
    rewrite (run_spawned _ _ _ Hs). repeat split; reflexivity.
Qed.

(** C7 as the specification has it fails: [spawn] throws, and the call
    writes nothing to stdin and does not end it. *)
Lemma C7_spawn_throws_nothing_written :
  Server.actions "graph TD; A-->B;" (Some svg) Server.throwing_process
    = [ Spawn "npx" ["@mermaid-js/mermaid-cli"; "-i"; "-"; "-o"; "-"; "-e"; "svg"]
          ["pipe"; "pipe"; "pipe"] ] /\
  List.length (filter is_write
    (Server.actions "graph TD; A-->B;" (Some svg) Server.throwing_process)) = 0 /\
  List.length (filter is_end
    (Server.actions "graph TD; A-->B;" (Some svg) Server.throwing_process)) = 0.
Proof. repeat split; reflexivity. Qed.

(** *** The server process on whole runs *)

Example server_child_without_stdio :
  Server.run "graph TD; A-->B;" None Server.exhausted_process =
  ([ Spawn "npx" (mmdc_args png) pipes ],
   Normal [Text "Mermaid diagram is invalid";
           Text "Cannot read properties of undefined (reading 'write')"]) /\
  Server.uncaught "graph TD; A-->B;" None Server.exhausted_process
    = Some "spawn npx EMFILE".
Proof. split; reflexivity. Qed.

Example server_broken_pipe :
  Server.outcome "graph TD; A-->B;" None Server.broken_pipe_process = Suspended /\
  Server.uncaught "graph TD; A-->B;" None Server.broken_pipe_process
    = Some "write EPIPE".
Proof. split; reflexivity. Qed.

Example server_rendering :
  Server.run "graph TD; A-->B;" None Server.rendering_process =
  (full_log "graph TD; A-->B;" png,
   Normal [Text "Mermaid diagram is valid"; Image "PHN2Zz48L3N2Zz4=" "image/png"]) /\
  Server.uncaught "graph TD; A-->B;" None Server.rendering_process = None.
Proof. split; reflexivity. Qed.
